(** * gohealthcheck: the health registry, its scheduler and the status handler

    A shallow embedding of [health/health.go].  The registry ([Health]) is a
    record, each exported method a function on it, and the scheduling loop
    [RunCheckers] a transition system whose steps are the stretches of code
    the loop runs between two releases of the registry mutex.  Everything a
    method obtains from outside the package (the outcome of a probe, the
    clock, the HTTP client, [json.Marshal], the response writer) is an
    explicit input. *)

From Stdlib Require Import ZArith String List Lia.
From stdpp Require Import base list strings pretty.

Local Open Scope Z_scope.
Local Open Scope string_scope.

(** ** Data model *)

(** A non-nil Go [error], observed through its [Error()] text (which is
    also what [%v] prints).  A Go result of type [error] is an
    [option error], [None] standing for [nil]. *)
Definition error : Type := string.

(** What [client.Get] hands back when it succeeds, as far as [Check] looks
    at it: the status code and whether draining the body with [io.Copy]
    fails. *)
Record Response : Type := mkResponse {
  StatusCode : Z;
  Body : option error
}.

(** An [*http.Client], observed through [Get]. *)
Definition Client : Type := string -> error + Response.

Record httpChecker : Type := mkHttpChecker {
  url : string;
  hc_httpClient : Client
}.

(** The stub probe of the test file. *)
Record testChecker : Type := mkTestChecker {
  called : bool;
  err : option error
}.

Section Model.

(** The values of the interface type [Checker]. *)
Context {Checker : Type}.

Record healthIndicator : Type := mkIndicator {
  Service : string;
  Healthy : bool;
  Message : string;
  ObserveOnly : bool;
  LastChecked : Z;
  checker : Checker
}.

(** [Health] without its embedded [sync.Mutex]: every function below is one
    critical section, or one stretch of code run with the mutex released,
    and is atomic in the model. *)
Record Health : Type := mkHealth {
  run : bool;
  httpClient : Client;
  H_Healthy : bool;
  Checks : list healthIndicator
}.

Definition set_run (b : bool) (h : Health) : Health :=
  mkHealth b (httpClient h) (H_Healthy h) (Checks h).

Definition set_httpClient (c : Client) (h : Health) : Health :=
  mkHealth (run h) c (H_Healthy h) (Checks h).

Definition set_Healthy (b : bool) (h : Health) : Health :=
  mkHealth (run h) (httpClient h) b (Checks h).

Definition set_Checks (cs : list healthIndicator) (h : Health) : Health :=
  mkHealth (run h) (httpClient h) (H_Healthy h) cs.

(** ** Construction *)

(** [MakeHealth]: every field but the client has Go's zero value. *)
Definition MakeHealth (DefaultClient : Client) : Health :=
  mkHealth false DefaultClient false [].

Definition WithHTTPClient (client : Client) (h : Health) : Health :=
  set_httpClient client h.

(** ** Registration *)

(** [removeChecker s i]: [s[i] = s[len(s)-1]; return s[:len(s)-1]].
    Either index expression panics when out of range: [None]. *)
Definition removeChecker (s : list healthIndicator) (i : nat)
  : option (list healthIndicator) :=
  match s !! (length s - 1)%nat with
  | None => None
  | Some last =>
      if decide (i < length s)%nat
      then Some (take (length s - 1) (<[i := last]> s))
      else None
  end.

(** The index and a copy of the first entry of the slice named [service],
    as the two [range] loops find it. *)
Fixpoint lookup_service (service : string) (idx : nat) (cs : list healthIndicator)
  : option (nat * healthIndicator) :=
  match cs with
  | [] => None
  | c :: cs' =>
      if decide (Service c = service) then Some (idx, c)
      else lookup_service service (S idx) cs'
  end.

(** [AddCheck].  The loop variable [c] of [for _, c := range h.Checks] is a
    copy of the element; the two assignments change the copy, which is
    dropped at the [return]. *)
Definition AddCheck (service : string) (observeOnly : bool) (chk : Checker)
    (h : Health) : Health :=
  match lookup_service service 0 (Checks h) with
  | Some (_, c) =>
      let c := mkIndicator (Service c) (Healthy c) (Message c)
                           (ObserveOnly c) (LastChecked c) chk in
      let c := mkIndicator (Service c) (Healthy c) (Message c)
                           observeOnly (LastChecked c) (checker c) in
      h
  | None =>
      set_Checks (Checks h ++ [mkIndicator service true "" observeOnly 0 chk]) h
  end.

(** [RemoveCheck]; [None] is a run-time panic of [removeChecker]. *)
Definition RemoveCheck (service : string) (h : Health) : option Health :=
  match lookup_service service 0 (Checks h) with
  | Some (idx, _) =>
      match removeChecker (Checks h) idx with
      | Some cs => Some (set_Checks cs h)
      | None => None
      end
  | None => Some h
  end.

(** ** Running one probe *)

(** Conversion of an [int64] to [uint64]. *)
Definition uint64 (z : Z) : Z := z mod 2 ^ 64.

(** [runChecker], applied to the entry its argument points to.  [o] is what
    [checker.checker.Check()] returned and [now] is
    [time.Now().UnixMilli()]. *)
Definition runChecker (o : option error) (now : Z) (c : healthIndicator)
  : healthIndicator :=
  let c :=
    match o with
    | None =>
        mkIndicator (Service c) true "OK" (ObserveOnly c) (LastChecked c) (checker c)
    | Some e =>
        mkIndicator (Service c) false (Service c ++ " ERROR " ++ e)
                    (ObserveOnly c) (LastChecked c) (checker c)
    end in
  mkIndicator (Service c) (Healthy c) (Message c) (ObserveOnly c)
              (uint64 now) (checker c).

(** ** The scheduling loop *)

(** Wrap-around of [int64] arithmetic ([time.Duration] is an [int64]). *)
Definition int64 (z : Z) : Z := (z + 2 ^ 63) mod 2 ^ 64 - 2 ^ 63.

(** [time.Millisecond] and [time.Second], in nanoseconds. *)
Definition Millisecond : Z := 1000000.
Definition Second : Z := 1000000000.

(** Where the goroutine running [RunCheckers] stands whenever it does not
    hold the mutex: in [time.Sleep] (line 136); between [h.Unlock()] of line
    150 and the evaluation of [&h.Checks[nextIndex]]; inside [runChecker]
    with the address of slot [slot] of the slice; after the [return] of line
    143; after an index-out-of-range panic at line 151. *)
Inductive pc : Type :=
| Sleeping
| Unlocked
| Probing (slot : nat)
| Returned
| Panicked.

(** The local variables of [RunCheckers].  [nextIndex] never exceeds the
    length of the slice, so it is a [nat]. *)
Record loop : Type := mkLoop {
  nextIndex : nat;
  firstPass : bool;
  count : Z;
  at_pc : pc
}.

(** Lines 122-128: the variables and the registry when the [for] is entered. *)
Definition RunCheckers_start (h : Health) : Health * loop :=
  (set_run true h, mkLoop 0 true (Z.of_nat (length (Checks h)) + 1) Sleeping).

(** Lines 132-135: the argument of [time.Sleep], in nanoseconds. *)
Definition sleepDuration (frequency : Z) (l : loop) : Z :=
  let sleepDuration := Z.quot (int64 (int64 frequency * Second)) (count l) in
  if firstPass l then int64 (10 * Millisecond) else sleepDuration.

(** Lines 157-163: the global status. *)
Definition recompute (cs : list healthIndicator) : bool :=
  fold_left (fun healthy c => if ObserveOnly c then healthy else healthy && Healthy c)
            cs true.

(** Lines 154-164, run with the mutex held. *)
Definition loop_finish (h : Health) (l : loop) : Health * loop :=
  (set_Healthy (recompute (Checks h)) h,
   mkLoop (S (nextIndex l)) (firstPass l) (count l) Sleeping).

(** Lines 139-150: the lock acquisition after the sleep, and on an empty
    slice the rest of the iteration. *)
Definition loop_wake (h : Health) (l : loop) : Health * loop :=
  let count := Z.of_nat (length (Checks h)) + 1 in
  if negb (run h) then (h, mkLoop (nextIndex l) (firstPass l) count Returned)
  else
    let '(nextIndex, firstPass) :=
      if decide (length (Checks h) <= nextIndex l)%nat then (0%nat, false)
      else (nextIndex l, firstPass l) in
    if decide (0 < length (Checks h))%nat
    then (h, mkLoop nextIndex firstPass count Unlocked)
    else loop_finish h (mkLoop nextIndex firstPass count Sleeping).

(** Line 151, the argument [&h.Checks[nextIndex]], evaluated with the mutex
    released. *)
Definition loop_ref (h : Health) (l : loop) : Health * loop :=
  if decide (nextIndex l < length (Checks h))%nat
  then (h, mkLoop (nextIndex l) (firstPass l) (count l) (Probing (nextIndex l)))
  else (h, mkLoop (nextIndex l) (firstPass l) (count l) Panicked).

(** Lines 109-117 through the pointer, then the lock acquisition of line 152
    and lines 154-164.  The pointer is slot [slot] of the slice's array: the
    write reaches the entry now in that slot, and nothing the registry shows
    when the slice has shrunk below it.  (An [append] that moved the slice
    to a larger array while the probe ran would leave the pointer on the old
    array; the model does not tell the two arrays apart, and nothing proved
    about the loop below depends on what this write stores.) *)
Definition loop_probe (o : option error) (now : Z) (slot : nat)
    (h : Health) (l : loop) : Health * loop :=
  loop_finish (set_Checks (alter (runChecker o now) slot (Checks h)) h) l.

(** One step of the loop goroutine. *)
Definition loop_step (o : option error) (now : Z) (s : Health * loop)
  : Health * loop :=
  match at_pc (snd s) with
  | Sleeping => loop_wake (fst s) (snd s)
  | Unlocked => loop_ref (fst s) (snd s)
  | Probing slot => loop_probe o now slot (fst s) (snd s)
  | Returned | Panicked => s
  end.

(** [StopCheckers]. *)
Definition StopCheckers (h : Health) : Health := set_run false h.

(** [HTTPChecker]: the reference probe for [url], sharing the registry's client. *)
Definition HTTPChecker (url : string) (h : Health) : httpChecker :=
  mkHttpChecker url (httpClient h).

(** ** The registry and the loop side by side *)

(** What can happen to a registry whose loop is running: a call of one of
    the methods from another goroutine, or the next step of the loop. *)
Inductive event : Type :=
| EvAddCheck (service : string) (observeOnly : bool) (chk : Checker)
| EvRemoveCheck (service : string)
| EvStopCheckers
| EvLoop (o : option error) (now : Z).

Definition step (s : Health * loop) (e : event) : Health * loop :=
  match e with
  | EvAddCheck service observeOnly chk => (AddCheck service observeOnly chk (fst s), snd s)
  | EvRemoveCheck service => (default (fst s) (RemoveCheck service (fst s)), snd s)
  | EvStopCheckers => (StopCheckers (fst s), snd s)
  | EvLoop o now => loop_step o now s
  end.

Definition exec (tr : list event) (s : Health * loop) : Health * loop :=
  fold_left step tr s.

(** ** The status handler *)

(** What a request leaves behind: the header set, the status code written,
    the bytes handed to [w.Write], and the lines logged. *)
Record reply : Type := mkReply {
  header : list (string * string);
  status : Z;
  body : string;
  logged : list string
}.

(** The handler of [HTTPHandler].  [json_Marshal] is [json.Marshal] on the
    registry and [w_Write] is what [w.Write] answers for the bytes it is
    given. *)
Definition HTTPHandler (json_Marshal : Health -> error + string)
    (w_Write : string -> Z * option error) (h : Health) : reply :=
  let header := [("content-type", "application/json")] in
  let healthy := H_Healthy h in
  match json_Marshal h with
  | inl err => mkReply header 500 "" ["Healthcheck HTTPHandler: " ++ err]
  | inr data =>
      let code := if healthy then 200 else 418 in
      let '(written, err) := w_Write data in
      let log1 := match err with
                  | Some e => ["when writing body: " ++ e]
                  | None => []
                  end in
      let log2 := if decide (written = Z.of_nat (String.length data)) then []
                  else ["unable to write entire body, " ++ pretty written ++ " of "
                        ++ pretty (Z.of_nat (String.length data)) ++ " bytes"] in
      mkReply header code data (log1 ++ log2)
  end.

End Model.

(** ** The reference HTTP probe *)

(** [Check] of [httpChecker]. *)
Definition httpChecker_Check (hc : httpChecker) : option error :=
  match hc_httpClient hc (url hc) with
  | inl err => Some err
  | inr resp =>
      match Body resp with
      | Some err => Some err
      | None =>
          if ((200 <=? StatusCode resp) && (StatusCode resp <? 400))%Z then None
          else Some ("HTTP status code " ++ pretty (StatusCode resp) ++ " returned")
      end
  end.

Arguments healthIndicator : clear implicits.
Arguments Health : clear implicits.
Arguments event : clear implicits.

(** ** Vocabulary of the properties *)

(** [sub] occurs in [s]. *)
Definition contains (sub s : string) : Prop :=
  exists pre post : string, s = pre ++ sub ++ post.

Section Vocabulary.

Context {Checker : Type}.

(** The names registered, in slice order. *)
Definition names (h : Health Checker) : list string := Service <$> Checks h.

(** An entry with its [Healthy] flag set to [b]. *)
Definition with_Healthy (b : bool) (c : healthIndicator Checker) : healthIndicator Checker :=
  mkIndicator (Service c) b (Message c) (ObserveOnly c) (LastChecked c) (checker c).

(** A sequence of [AddCheck] calls, first call first. *)
Definition AddChecks (calls : list (string * bool * Checker)) (h : Health Checker)
  : Health Checker :=
  fold_left (fun h call => AddCheck call.1.1 call.1.2 call.2 h) calls h.

(** Events that are steps of the loop goroutine. *)
Definition is_loop_event (e : event Checker) : bool :=
  match e with
  | EvLoop _ _ => true
  | _ => false
  end.

(** The call of [StopCheckers]. *)
Definition is_stop_event (e : event Checker) : bool :=
  match e with
  | EvStopCheckers => true
  | _ => false
  end.

(** The calls of [RemoveCheck]. *)
Definition is_remove_event (e : event Checker) : bool :=
  match e with
  | EvRemoveCheck _ => true
  | _ => false
  end.

(** One iteration of the [for] over a registry that is not empty, with no
    other goroutine at work: the lock acquisition after the sleep, the slot
    address, and the probe call, which answers [r.1] at time [r.2], with the
    rest of the body. *)
Definition iteration (s : Health Checker * loop) (r : option error * Z)
  : Health Checker * loop :=
  loop_step r.1 r.2 (loop_step r.1 r.2 (loop_step r.1 r.2 s)).

(** As many iterations as there are probe answers in [rs]. *)
Definition iterations (rs : list (option error * Z)) (s : Health Checker * loop)
  : Health Checker * loop :=
  fold_left iteration rs s.

(** Round robin, as a specification: the answers [rs] are recorded in
    turn, the first of them in slot [k] modulo the number of entries, the
    next one slot further, wrapping around. *)
Fixpoint round_robin (k : nat) (rs : list (option error * Z))
    (cs : list (healthIndicator Checker)) : list (healthIndicator Checker) :=
  match rs with
  | [] => cs
  | r :: rs' =>
      round_robin (S k) rs' (alter (runChecker r.1 r.2) (k mod length cs)%nat cs)
  end.

(** Where the cursor [nextIndex] stands after [k] iterations over [n]
    entries: one past the slot probed last. *)
Definition cursor_after (n k : nat) : nat :=
  match k with
  | O => 0
  | S k' => k' mod n + 1
  end.

(** What identifies a registration: the name, the observe-only flag and
    the probe. *)
Definition registration (c : healthIndicator Checker) : string * bool * Checker :=
  (Service c, ObserveOnly c, checker c).


(** How many steps the loop goroutine takes in a trace. *)
Definition loop_steps (tr : list (event Checker)) : nat :=
  length (filter (fun e => is_loop_event e = true) tr).

End Vocabulary.

(** How many steps of the loop goroutine come before the check of the
    [run] flag at line 141, at most, from each position. *)
Definition steps_to_flag (p : pc) : nat :=
  match p with
  | Returned | Panicked => 0
  | Sleeping => 1
  | Probing _ => 2
  | Unlocked => 3
  end.

(** The loop is in its sleep, inside a probe call, or has returned. *)
Definition sleeping_or_probing (p : pc) : Prop :=
  match p with
  | Sleeping | Probing _ | Returned => True
  | Unlocked | Panicked => False
  end.

(** The sleep as the specification words it: the frequency divided by
    [max(1, number of checks)], but a fixed 10 ms on the very first
    iteration. *)
Definition spec_count (numChecks : nat) : Z := Z.max 1 (Z.of_nat numChecks).

Definition spec_sleepDuration (frequency : Z) (numChecks : nat) (veryFirst : bool) : Z :=
  if veryFirst then 10 * Millisecond
  else Z.quot (frequency * Second) (spec_count numChecks).

(** ** Sample values *)

(** The two stub probes of the test file. *)
Definition failChecker : testChecker := mkTestChecker false (Some "Generic Error").
Definition successChecker : testChecker := mkTestChecker false None.

(** A client that reaches nothing. *)
Definition deadClient : Client := fun _ => inl "connection refused".

(** A client whose every answer has status [code] and a readable body. *)
Definition fixedClient (code : Z) : Client := fun _ => inr (mkResponse code None).

(** A registry with one critical check, and one with two. *)
Definition one_check : Health testChecker :=
  AddCheck "db" false successChecker (MakeHealth deadClient).

Definition two_checks : Health testChecker :=
  AddCheck "cache" true failChecker one_check.

(** An encoder that never fails, and a writer that takes every byte. *)
Definition marshal_ok : Health testChecker -> error + string := fun _ => inr "{}".
Definition write_all : string -> Z * option error :=
  fun data => (Z.of_nat (String.length data), None).

(** * Properties *)

Section Registration.

Context {Checker : Type}.
Implicit Types (h : Health Checker) (c : healthIndicator Checker).
Implicit Types (cs : list (healthIndicator Checker)) (service : string).

(** ** The search of the two [range] loops *)

Lemma lookup_service_None service idx cs :
  lookup_service service idx cs = None <-> service ∉ Service <$> cs.
Proof.
  revert idx. induction cs as [|c cs IH]; intros idx; simpl.
  - split; [intros _; apply not_elem_of_nil | done].
  - rewrite not_elem_of_cons. destruct (decide (Service c = service)) as [E|N].
    + split; [done | intros [? _]; congruence].
    + rewrite IH. split; [intros ?; split; [congruence | done] | tauto].
Qed.

Lemma lookup_service_Some service idx cs i c :
  lookup_service service idx cs = Some (i, c) ->
  exists j : nat,
    i = (idx + j)%nat /\ cs !! j = Some c /\ Service c = service /\
    service ∉ Service <$> take j cs.
Proof.
  revert idx. induction cs as [|c0 cs IH]; intros idx; simpl; [done |].
  destruct (decide (Service c0 = service)) as [E|N].
  - intros [= <- <-]. exists 0%nat. repeat split; [lia | done | apply not_elem_of_nil].
  - intros H. destruct (IH _ H) as (j & -> & Hj & Hs & Hn).
    exists (S j). repeat split; [lia | done | done |].
    simpl. rewrite not_elem_of_cons. split; [congruence | done].
Qed.

Lemma lookup_service_is_Some service idx cs :
  service ∈ Service <$> cs -> is_Some (lookup_service service idx cs).
Proof.
  intros Hin. destruct (lookup_service service idx cs) eqn:E; [eauto |].
  apply lookup_service_None in E. done.
Qed.

(** ** Swap with the last element and truncate *)

Lemma removeChecker_Some cs i :
  (i < length cs)%nat ->
  exists last,
    cs !! (length cs - 1)%nat = Some last /\
    removeChecker cs i = Some (take (length cs - 1) (<[i := last]> cs)).
Proof.
  intros Hi. unfold removeChecker.
  destruct (lookup_lt_is_Some_2 cs (length cs - 1)) as [last Hl]; [lia |].
  exists last. rewrite Hl. split; [done |]. by rewrite decide_True.
Qed.

Lemma swap_truncate_Permutation cs i last :
  (i < length cs)%nat ->
  cs !! (length cs - 1)%nat = Some last ->
  take (length cs - 1) (<[i := last]> cs) ≡ₚ delete i cs.
Proof.
  intros Hi Hl.
  destruct (lookup_lt_is_Some_2 cs i Hi) as [x Hx].
  destruct (list_elem_of_split_length cs i x Hx) as (l1 & l2 & -> & ->).
  rewrite insert_app_r_alt, Nat.sub_diag by lia. simpl.
  rewrite delete_middle.
  destruct l2 as [|z l2 _] using rev_ind.
  - rewrite length_app in *. simpl in *.
    replace (length l1 + 1 - 1)%nat with (length l1) by lia.
    rewrite take_app_length. by rewrite app_nil_r.
  - assert (last = z) as ->.
    { revert Hl. rewrite !length_app. simpl. rewrite length_app. simpl.
      replace (length l1 + S (length l2 + 1) - 1)%nat
        with (length l1 + S (length l2))%nat by lia.
      rewrite lookup_app_r by lia.
      replace (length l1 + S (length l2) - length l1)%nat with (S (length l2)) by lia.
      simpl. rewrite lookup_app_r by lia. rewrite Nat.sub_diag. simpl. congruence. }
    rewrite !length_app. simpl. rewrite length_app. simpl.
    replace (length l1 + S (length l2 + 1) - 1)%nat
      with (length l1 + S (length l2))%nat by lia.
    rewrite take_app_add'; [| done]. simpl.
    rewrite take_app_length.
    apply Permutation_app_head. apply Permutation_cons_append.
Qed.

Lemma NoDup_delete_lookup (l : list string) (i : nat) (x : string) :
  NoDup l -> l !! i = Some x -> x ∉ delete i l.
Proof.
  intros Hnd Hi.
  apply list_elem_of_split_length in Hi as (l1 & l2 & -> & ->).
  rewrite delete_middle. apply NoDup_app in Hnd as (_ & H1 & H2).
  apply NoDup_cons in H2 as [H2 _]. rewrite elem_of_app.
  intros [Hx | Hx]; [apply (H1 x Hx); left | done].
Qed.

(** ** Frame of [AddCheck] *)

Lemma AddCheck_present service observeOnly chk h :
  service ∈ names h -> AddCheck service observeOnly chk h = h.
Proof.
  intros Hin. unfold AddCheck.
  destruct (lookup_service_is_Some service 0 (Checks h) Hin) as [[i c] ->]. done.
Qed.

Lemma AddCheck_absent service observeOnly chk h :
  service ∉ names h ->
  AddCheck service observeOnly chk h =
  set_Checks (Checks h ++ [mkIndicator service true "" observeOnly 0 chk]) h.
Proof.
  intros Hn. unfold AddCheck.
  apply (lookup_service_None service 0) in Hn. by rewrite Hn.
Qed.

Lemma AddCheck_names service observeOnly chk h :
  names (AddCheck service observeOnly chk h) =
  if decide (service ∈ names h) then names h else (names h ++ [service])%list.
Proof.
  destruct (decide (service ∈ names h)) as [Hin | Hn].
  - by rewrite AddCheck_present.
  - rewrite AddCheck_absent by done. unfold names. simpl. by rewrite fmap_app.
Qed.

Lemma AddCheck_NoDup service observeOnly chk h :
  NoDup (names h) -> NoDup (names (AddCheck service observeOnly chk h)).
Proof.
  intros Hnd. rewrite AddCheck_names. destruct (decide (service ∈ names h)); [done |].
  apply NoDup_app. repeat split; [done | | apply NoDup_singleton].
  intros x Hx Hx'. apply list_elem_of_singleton in Hx'. by subst.
Qed.

Lemma AddChecks_names (calls : list (string * bool * Checker)) h :
  NoDup (names h ++ ((fun call => call.1.1) <$> calls))%list ->
  names (AddChecks calls h) = (names h ++ ((fun call => call.1.1) <$> calls))%list.
Proof.
  revert h. induction calls as [|[[service observeOnly] chk] calls IH]; intros h Hnd.
  - simpl. by rewrite app_nil_r.
  - simpl in *. assert (service ∉ names h) as Hn.
    { apply NoDup_app in Hnd as (_ & Hd & _). intros Hin. apply (Hd _ Hin). left. }
    unfold AddChecks in *. simpl. rewrite IH.
    + rewrite AddCheck_names, decide_False by done. by rewrite <- app_assoc.
    + rewrite AddCheck_names, decide_False by done. by rewrite <- app_assoc.
Qed.

End Registration.

Section RegistrationClaims.

Context {Checker : Type}.
Implicit Types (h : Health Checker) (c : healthIndicator Checker) (service : string).

(** C1 (the code departs from the claim).  When an entry named [service]
    is already registered, [AddCheck service observeOnly chk] returns the
    registry exactly as it was: the number of entries and every entry's
    healthy, message and lastChecked fields are unchanged, as the claim
    says, but so are the stored probe and the observe-only flag, which the
    claim says are replaced.  The assignments of lines 87-88 go to the
    loop variable, a copy of the entry. *)
Theorem AddCheck_existing_noop service (observeOnly : bool) (chk : Checker) h :
  service ∈ names h ->
  AddCheck service observeOnly chk h = h.
Proof. apply AddCheck_present. Qed.

(** C7.  [RemoveCheck service] on a registry that has the name does not
    panic; it removes the first entry with that name by writing the last
    element over it and dropping the last slot, so that the entries left are
    the others up to order and there is exactly one fewer (and, names being
    unique, the name is gone); the other fields of the registry are
    untouched.  On a registry without the name it changes nothing. *)
Theorem RemoveCheck_swap_truncate service h :
  (service ∈ names h ->
   exists (idx : nat) c last h',
     Checks h !! idx = Some c /\ Service c = service /\
     (service ∉ Service <$> take idx (Checks h)) /\
     Checks h !! (length (Checks h) - 1)%nat = Some last /\
     RemoveCheck service h = Some h' /\
     Checks h' = take (length (Checks h) - 1) (<[idx := last]> (Checks h)) /\
     Checks h' ≡ₚ delete idx (Checks h) /\
     S (length (Checks h')) = length (Checks h) /\
     (NoDup (names h) -> service ∉ names h') /\
     run h' = run h /\ H_Healthy h' = H_Healthy h /\ httpClient h' = httpClient h)
  /\ (service ∉ names h -> RemoveCheck service h = Some h).
Proof.
  split.
  - intros Hin. unfold RemoveCheck.
    destruct (lookup_service_is_Some service 0 (Checks h) Hin) as [[idx c] Hl].
    rewrite Hl. apply lookup_service_Some in Hl as (j & -> & Hj & Hs & Hfirst).
    simpl in *. pose proof (lookup_lt_Some _ _ _ Hj) as Hlt.
    destruct (removeChecker_Some (Checks h) j Hlt) as (last & Hlast & ->).
    pose proof (swap_truncate_Permutation (Checks h) j last Hlt Hlast) as Hperm.
    exists j, c, last. eexists. repeat split; try done.
    + simpl. rewrite Hperm. rewrite length_delete by eauto. lia.
    + intros Hnd. unfold names. simpl. rewrite Hperm.
      rewrite <- Hs, list_fmap_delete. apply NoDup_delete_lookup; [done |].
      unfold names. by rewrite list_lookup_fmap, Hj.
  - intros Hn. unfold RemoveCheck.
    apply (lookup_service_None service 0) in Hn. by rewrite Hn.
Qed.

(** C8.  [AddCheck] with a name that is not registered appends an entry
    with healthy = true, an empty message and lastChecked = 0 (and the
    given name, flag and probe), and leaves the rest of the registry as it
    was; [AddCheck] keeps unique names unique; and after any sequence of
    calls with pairwise distinct names on a fresh registry the entries are
    as many as the calls, their names the names of the calls, in order, with
    no name twice. *)
Theorem AddCheck_fresh_appends service (observeOnly : bool) (chk : Checker) h
    (calls : list (string * bool * Checker)) (DefaultClient : Client) :
  (service ∉ names h ->
   AddCheck service observeOnly chk h =
   set_Checks (Checks h ++ [mkIndicator service true "" observeOnly 0 chk]) h)
  /\ (NoDup (names h) -> NoDup (names (AddCheck service observeOnly chk h)))
  /\ (NoDup ((fun call => call.1.1) <$> calls) ->
      let h' := AddChecks calls (MakeHealth DefaultClient) in
      length (Checks h') = length calls /\
      names h' = (fun call => call.1.1) <$> calls /\
      NoDup (names h')).
Proof.
  split; [apply AddCheck_absent |]. split; [apply AddCheck_NoDup |].
  intros Hnd h'.
  assert (names h' = (fun call => call.1.1) <$> calls) as Hn.
  { unfold h'. rewrite AddChecks_names; [done |]. by simpl. }
  repeat split; [| done | by rewrite Hn].
  rewrite <- (length_fmap Service (Checks h')).
  fold (names h'). by rewrite Hn, length_fmap.
Qed.

End RegistrationClaims.

(** The registered name [db] is added again with another probe and the
    observe-only flag raised: the entry keeps its probe and its flag. *)
Lemma AddCheck_existing_noop_witness :
  "db" ∈ names one_check /\
  checker <$> Checks (AddCheck "db" true failChecker one_check) = [successChecker] /\
  ObserveOnly <$> Checks (AddCheck "db" true failChecker one_check) = [false].
Proof.
  assert ("db" ∈ names one_check) as Hin by (compute; constructor).
  split; [exact Hin |].
  rewrite (AddCheck_existing_noop "db" true failChecker one_check Hin).
  split; reflexivity.
Defined.

Lemma RemoveCheck_swap_truncate_witness :
  "db" ∈ names two_checks /\ ("web" ∉ names two_checks) /\
  (exists h', RemoveCheck "db" two_checks = Some h' /\
              S (length (Checks h')) = length (Checks two_checks)) /\
  names <$> RemoveCheck "db" two_checks = Some ["cache"] /\
  RemoveCheck "web" two_checks = Some two_checks.
Proof.
  assert ("db" ∈ names two_checks) as Hin by (compute; constructor).
  assert ("web" ∉ names two_checks) as Hn.
  { compute. intros H. repeat (inversion H as [|? ? ? H']; subst; clear H; rename H' into H). }
  destruct (RemoveCheck_swap_truncate "db" two_checks) as [Hpre _].
  destruct (RemoveCheck_swap_truncate "web" two_checks) as [_ Habs].
  destruct (Hpre Hin) as (idx & c & last & h' & _ & _ & _ & _ & Hr & _ & _ & Hlen & _).
  split; [exact Hin |]. split; [exact Hn |].
  split; [exists h'; split; [exact Hr | exact Hlen] |].
  split; [reflexivity | exact (Habs Hn)].
Defined.

Lemma AddCheck_fresh_appends_witness :
  ("cache" ∉ names one_check) /\
  NoDup ["db"; "cache"] /\
  names (AddCheck "cache" true failChecker one_check) = ["db"; "cache"] /\
  length (Checks (AddChecks [("db", false, successChecker); ("cache", true, failChecker)]
                            (MakeHealth deadClient))) = 2%nat.
Proof.
  assert ("cache" ∉ names one_check) as Hn.
  { compute. intros H. repeat (inversion H as [|? ? ? H']; subst; clear H; rename H' into H). }
  assert (NoDup ["db"; "cache"]) as Hnd.
  { apply NoDup_cons. split; [| apply NoDup_singleton].
    intros H. apply list_elem_of_singleton in H. discriminate. }
  destruct (AddCheck_fresh_appends "cache" true failChecker one_check
              [("db", false, successChecker); ("cache", true, failChecker)] deadClient)
    as (Happ & _ & Hseq).
  split; [exact Hn |]. split; [exact Hnd |].
  split; [rewrite (Happ Hn); reflexivity | exact (proj1 (Hseq Hnd))].
Defined.

(** ** Text *)

Lemma string_app_nil_r (s : string) : s ++ "" = s.
Proof.
  induction s as [|a s IH]; [done |].
  change (String a (s ++ "") = String a s). by rewrite IH.
Qed.

Lemma string_app_assoc (s t u : string) : (s ++ t) ++ u = s ++ t ++ u.
Proof.
  induction s as [|a s IH]; [done |].
  change (String a ((s ++ t) ++ u) = String a (s ++ t ++ u)). by rewrite IH.
Qed.

Lemma contains_prefix (sub post : string) : contains sub (sub ++ post).
Proof. by exists "", post. Qed.

Lemma contains_suffix (pre sub : string) : contains sub (pre ++ sub).
Proof. exists pre, "". by rewrite string_app_nil_r. Qed.

Lemma contains_app_r (pre sub s : string) : contains sub s -> contains sub (pre ++ s).
Proof.
  intros (p & q & ->). exists (pre ++ p), q. by rewrite string_app_assoc.
Qed.

Section ProbeClaims.

Context {Checker : Type}.
Implicit Types (h : Health Checker) (c : healthIndicator Checker).

(** C3.  With the clock reading a time after the epoch (a positive
    [int64] number of milliseconds), [runChecker] leaves the entry healthy
    with message OK when the probe returned nil, and unhealthy with a
    message containing the entry's name and the error's text when it
    returned an error; either way lastChecked is the clock's reading, which is
    greater than zero, and the name, the observe-only flag and the probe of
    the entry are as before. *)
Theorem runChecker_records (o : option error) (now : Z) c :
  0 < now < 2 ^ 63 ->
  let c' := runChecker o now c in
  match o with
  | None => Healthy c' = true /\ Message c' = "OK"
  | Some E =>
      Healthy c' = false /\
      contains (Service c) (Message c') /\ contains E (Message c')
  end
  /\ LastChecked c' = now /\ 0 < LastChecked c'
  /\ Service c' = Service c /\ ObserveOnly c' = ObserveOnly c
  /\ checker c' = checker c.
Proof.
  intros Hnow c'.
  assert (LastChecked c' = now) as Hl.
  { unfold c', runChecker. simpl. unfold uint64. apply Z.mod_small. lia. }
  split.
  - destruct o as [E|]; unfold c', runChecker; simpl; [| done].
    split; [done |]. split; [apply contains_prefix |].
    apply contains_app_r, contains_suffix.
  - rewrite Hl. repeat split; try lia; by destruct o.
Qed.

End ProbeClaims.

(** C5.  [Check] of the reference HTTP probe: a transport error of the GET
    is returned as it is; otherwise an error met while draining the body is
    returned; otherwise a status code from 200 to 399 gives nil and any other
    code gives the error with text
    HTTP status code <code> returned, the code in decimal. *)
Theorem httpChecker_Check_classifies (hc : httpChecker) :
  (forall e, hc_httpClient hc (url hc) = inl e -> httpChecker_Check hc = Some e)
  /\ (forall resp e,
        hc_httpClient hc (url hc) = inr resp -> Body resp = Some e ->
        httpChecker_Check hc = Some e)
  /\ (forall resp,
        hc_httpClient hc (url hc) = inr resp -> Body resp = None ->
        200 <= StatusCode resp <= 399 ->
        httpChecker_Check hc = None)
  /\ (forall resp,
        hc_httpClient hc (url hc) = inr resp -> Body resp = None ->
        ~ 200 <= StatusCode resp <= 399 ->
        httpChecker_Check hc =
        Some ("HTTP status code " ++ pretty (StatusCode resp) ++ " returned")).
Proof.
  unfold httpChecker_Check. repeat split.
  - by intros e ->.
  - by intros resp e -> ->.
  - intros resp -> -> Hc.
    destruct (200 <=? StatusCode resp)%Z eqn:E1, (StatusCode resp <? 400)%Z eqn:E2; simpl;
      [done | | |]; lia.
  - intros resp -> -> Hc.
    destruct (200 <=? StatusCode resp)%Z eqn:E1, (StatusCode resp <? 400)%Z eqn:E2; simpl;
      [| done | done | done]; lia.
Qed.

(** Status 200 and 301 pass, 404 fails with a text naming the code, and a
    GET that cannot connect fails with the transport's text. *)
Lemma httpChecker_Check_classifies_witness :
  httpChecker_Check (mkHttpChecker "http://a/" (fixedClient 200)) = None /\
  httpChecker_Check (mkHttpChecker "http://a/" (fixedClient 301)) = None /\
  httpChecker_Check (mkHttpChecker "http://a/" (fixedClient 404))
    = Some "HTTP status code 404 returned" /\
  httpChecker_Check (mkHttpChecker "http://a/" deadClient) = Some "connection refused".
Proof.
  pose proof (httpChecker_Check_classifies (mkHttpChecker "http://a/" (fixedClient 200)))
    as (_ & _ & H200 & _).
  pose proof (httpChecker_Check_classifies (mkHttpChecker "http://a/" (fixedClient 301)))
    as (_ & _ & H301 & _).
  pose proof (httpChecker_Check_classifies (mkHttpChecker "http://a/" (fixedClient 404)))
    as (_ & _ & _ & H404).
  pose proof (httpChecker_Check_classifies (mkHttpChecker "http://a/" deadClient))
    as (Hdead & _).
  split; [apply (H200 (mkResponse 200 None)); [reflexivity | reflexivity | simpl; lia] |].
  split; [apply (H301 (mkResponse 301 None)); [reflexivity | reflexivity | simpl; lia] |].
  split; [| apply Hdead; reflexivity].
  rewrite (H404 (mkResponse 404 None)); [reflexivity | reflexivity | reflexivity | simpl; lia].
Defined.

Lemma runChecker_records_witness :
  0 < 1700000000000 < 2 ^ 63 /\
  Message (runChecker (Some "Generic Error") 1700000000000
             (mkIndicator "test" true "" false 0 failChecker))
    = "test ERROR Generic Error" /\
  contains "Generic Error"
    (Message (runChecker (Some "Generic Error") 1700000000000
                (mkIndicator "test" true "" false 0 failChecker))) /\
  0 < LastChecked (runChecker None 1700000000000
                     (mkIndicator "test" true "" false 0 successChecker)).
Proof.
  assert (0 < 1700000000000 < 2 ^ 63) as Hnow by (split; reflexivity).
  pose proof (runChecker_records (Some "Generic Error") 1700000000000
                (mkIndicator "test" true "" false 0 failChecker) Hnow)
    as ((_ & _ & Hc) & _).
  pose proof (runChecker_records None 1700000000000
                (mkIndicator "test" true "" false 0 successChecker) Hnow)
    as (_ & _ & Hpos & _).
  split; [exact Hnow |]. split; [reflexivity |]. split; [exact Hc | exact Hpos].
Defined.

(** The test [Test_Health_callsChecker]: a registry with the one check
    [test], whose stub probe returns its [err] field, here nil. *)
Example Test_Health_callsChecker :
  let h := AddCheck "test" false successChecker (MakeHealth deadClient) in
  (fun c => (Healthy c, Message c))
    <$> (runChecker (err successChecker) 1700000000000 <$> Checks h !! 0%nat)
  = Some (true, "OK").
Proof. reflexivity. Qed.

Section Scheduler.

Context {Checker : Type}.
Implicit Types (h : Health Checker) (c : healthIndicator Checker) (l : loop).
Implicit Types (cs : list (healthIndicator Checker)) (s : Health Checker * loop).
Implicit Types (e : event Checker) (tr : list (event Checker)).

(** ** The global status *)

Lemma recompute_fold cs (acc : bool) :
  fold_left (fun healthy c => if ObserveOnly c then healthy else healthy && Healthy c)
            cs acc
  = acc && forallb (fun c => ObserveOnly c || Healthy c) cs.
Proof.
  revert acc. induction cs as [|c cs IH]; intros acc; simpl.
  - by rewrite andb_true_r.
  - rewrite IH. destruct (ObserveOnly c), (Healthy c), acc; simpl; try done.
Qed.

Lemma recompute_forallb cs :
  recompute cs = forallb (fun c => ObserveOnly c || Healthy c) cs.
Proof. unfold recompute. by rewrite recompute_fold. Qed.

Lemma recompute_true cs :
  recompute cs = true <->
  forall c, c ∈ cs -> ObserveOnly c = false -> Healthy c = true.
Proof.
  rewrite recompute_forallb, forallb_forall. split.
  - intros H c Hc Ho. specialize (H c (proj1 (list_elem_of_In _ _) Hc)).
    by rewrite Ho in H.
  - intros H c Hc. apply list_elem_of_In in Hc.
    destruct (ObserveOnly c) eqn:Ho; [done |]. simpl. by apply H.
Qed.

Lemma recompute_observe_only cs i c (b : bool) :
  cs !! i = Some c -> ObserveOnly c = true ->
  recompute (<[i := with_Healthy b c]> cs) = recompute cs.
Proof.
  intros Hi Ho. apply list_elem_of_split_length in Hi as (l1 & l2 & -> & ->).
  rewrite insert_app_r_alt, Nat.sub_diag by lia. simpl.
  rewrite !recompute_forallb, !forallb_app. simpl. by rewrite Ho.
Qed.

(** ** Steps of the loop *)

Lemma loop_finish_at h l : at_pc (loop_finish h l).2 = Sleeping.
Proof. done. Qed.

Lemma loop_finish_Healthy h l :
  H_Healthy (loop_finish h l).1 = recompute (Checks (loop_finish h l).1).
Proof. done. Qed.

(** A step that ends in [time.Sleep] has just run lines 154-164. *)
Lemma loop_step_Sleeping o now h l :
  at_pc (loop_step o now (h, l)).2 = Sleeping ->
  exists h0 l0, loop_step o now (h, l) = loop_finish h0 l0.
Proof.
  unfold loop_step. simpl. destruct (at_pc l) eqn:E; simpl.
  - unfold loop_wake. destruct (run h); simpl; [| done].
    destruct (decide (length (Checks h) <= nextIndex l)%nat);
      destruct (decide (0 < length (Checks h))%nat); simpl; try done; eauto.
  - unfold loop_ref. by destruct (decide _).
  - unfold loop_probe. eauto.
  - by rewrite E.
  - by rewrite E.
Qed.

Lemma loop_step_run o now s : run (loop_step o now s).1 = run s.1.
Proof.
  destruct s as [h l]. unfold loop_step. simpl. destruct (at_pc l); simpl; try done.
  - unfold loop_wake. destruct (run h) eqn:E; simpl; [| by rewrite E].
    destruct (decide (length (Checks h) <= nextIndex l)%nat);
      destruct (decide (0 < length (Checks h))%nat); simpl; done.
  - unfold loop_ref. by destruct (decide _).
Qed.

Lemma loop_step_length o now s :
  length (Checks (loop_step o now s).1) = length (Checks s.1).
Proof.
  destruct s as [h l]. unfold loop_step. simpl. destruct (at_pc l); simpl; try done.
  - unfold loop_wake. destruct (run h); simpl; [| done].
    destruct (decide (length (Checks h) <= nextIndex l)%nat);
      destruct (decide (0 < length (Checks h))%nat); simpl; done.
  - unfold loop_ref. by destruct (decide _).
  - by rewrite length_alter.
Qed.

(** C2.  A step of the loop that ends an iteration (the loop is back in
    its sleep) leaves the aggregate flag true exactly when every entry that
    is not observe-only is healthy; in particular it is true when no entry
    is critical, and setting the healthy flag of an observe-only entry to
    anything gives the same recomputed aggregate. *)
Theorem aggregate_after_iteration (o : option error) (now : Z) h l :
  at_pc (loop_step o now (h, l)).2 = Sleeping ->
  let h' := (loop_step o now (h, l)).1 in
  (H_Healthy h' = true <->
   forall c, c ∈ Checks h' -> ObserveOnly c = false -> Healthy c = true)
  /\ ((forall c, c ∈ Checks h' -> ObserveOnly c = true) -> H_Healthy h' = true)
  /\ (forall (i : nat) c (b : bool),
        Checks h' !! i = Some c -> ObserveOnly c = true ->
        recompute (<[i := with_Healthy b c]> (Checks h')) = H_Healthy h').
Proof.
  intros Hat h'. destruct (loop_step_Sleeping _ _ _ _ Hat) as (h0 & l0 & Heq).
  assert (H_Healthy h' = recompute (Checks h')) as Hh.
  { unfold h'. rewrite Heq. apply loop_finish_Healthy. }
  rewrite Hh. split; [apply recompute_true |]. split.
  - intros Hall. apply recompute_true. intros c Hc Ho.
    rewrite (Hall c Hc) in Ho. discriminate.
  - intros i c b Hi Ho. by apply recompute_observe_only.
Qed.

(** ** Frames of the methods called from other goroutines *)

Lemma AddCheck_frame service (observeOnly : bool) (chk : Checker) h :
  run (AddCheck service observeOnly chk h) = run h /\
  H_Healthy (AddCheck service observeOnly chk h) = H_Healthy h /\
  httpClient (AddCheck service observeOnly chk h) = httpClient h.
Proof.
  unfold AddCheck. by destruct (lookup_service service 0 (Checks h)) as [[i c]|].
Qed.

Lemma RemoveCheck_frame service h :
  exists h', RemoveCheck service h = Some h' /\
    run h' = run h /\ H_Healthy h' = H_Healthy h /\ httpClient h' = httpClient h.
Proof.
  unfold RemoveCheck.
  destruct (lookup_service service 0 (Checks h)) as [[i c]|] eqn:E; [| by exists h].
  apply lookup_service_Some in E as (j & -> & Hj & _). simpl.
  destruct (removeChecker_Some (Checks h) j (lookup_lt_Some _ _ _ Hj)) as (last & _ & ->).
  by eexists.
Qed.

Lemma step_other_frame s e :
  is_loop_event e = false ->
  (step s e).2 = s.2 /\ run (step s e).1 = (run s.1 && negb (is_stop_event e))
  /\ H_Healthy (step s e).1 = H_Healthy s.1.
Proof.
  destruct s as [h l]. destruct e as [service oo chk | service | | o now]; simpl; [| | | done];
    intros _.
  - destruct (AddCheck_frame service oo chk h) as (-> & -> & _).
    by rewrite andb_true_r.
  - destruct (RemoveCheck_frame service h) as (h' & -> & Hr & Hh & _). simpl.
    by rewrite Hr, Hh, andb_true_r.
  - by rewrite andb_false_r.
Qed.

Lemma exec_snoc tr e s : exec (tr ++ [e]) s = step (exec tr s) e.
Proof. unfold exec. by rewrite fold_left_app. Qed.

(** ** When the loop returns *)

Lemma loop_step_Returned o now h l :
  at_pc (loop_step o now (h, l)).2 = Returned ->
  at_pc l = Returned \/ (at_pc l = Sleeping /\ run h = false).
Proof.
  unfold loop_step. simpl. destruct (at_pc l) eqn:E; simpl.
  - unfold loop_wake. destruct (run h); simpl; [| by right].
    destruct (decide (length (Checks h) <= nextIndex l)%nat);
      destruct (decide (0 < length (Checks h))%nat); simpl; done.
  - unfold loop_ref. by destruct (decide _).
  - done.
  - by left.
  - by rewrite E.
Qed.

Lemma step_keeps_running s e :
  e <> EvStopCheckers -> run s.1 = true -> at_pc s.2 <> Returned ->
  run (step s e).1 = true /\ at_pc (step s e).2 <> Returned.
Proof.
  intros He Hr Hp. destruct (is_loop_event e) eqn:El.
  - destruct e as [| | |o now]; try done. simpl. rewrite loop_step_run. split; [done |].
    destruct s as [h l]. intros Hret.
    apply loop_step_Returned in Hret as [? | [_ ?]]; simpl in *; congruence.
  - destruct (step_other_frame s e El) as (-> & -> & _).
    rewrite Hr. by destruct e.
Qed.

Lemma exec_Returned_stopped tr s :
  run s.1 = true -> at_pc s.2 <> Returned ->
  at_pc (exec tr s).2 = Returned -> EvStopCheckers ∈ tr.
Proof.
  revert s. induction tr as [|e tr IH]; intros s Hr Hp Hret; simpl in *; [done |].
  destruct e as [service oo chk | service | | o now] eqn:Ee;
    try (right; apply (IH (step s e)); subst e;
         [apply step_keeps_running | apply step_keeps_running | exact Hret]; done).
  left.
Qed.

Lemma step_after_stop s e :
  run s.1 = false ->
  run (step s e).1 = false /\
  (steps_to_flag (at_pc (step s e).2)
   <= steps_to_flag (at_pc s.2) - (if is_loop_event e then 1 else 0))%nat.
Proof.
  intros Hr. destruct (is_loop_event e) eqn:El.
  - destruct e as [| | |o now]; try done. simpl. rewrite loop_step_run. split; [done |].
    destruct s as [h l]. simpl in *. unfold loop_step. simpl.
    destruct (at_pc l) eqn:E; simpl; try (rewrite E; simpl; lia).
    + unfold loop_wake. rewrite Hr. simpl. lia.
    + unfold loop_ref. destruct (decide _); simpl; lia.
    + lia.
  - destruct (step_other_frame s e El) as (-> & -> & _). rewrite Hr. split; [done | lia].
Qed.

Lemma step_after_stop_settled s e :
  run s.1 = false -> sleeping_or_probing (at_pc s.2) ->
  sleeping_or_probing (at_pc (step s e).2).
Proof.
  intros Hr Hp. destruct (is_loop_event e) eqn:El.
  - destruct e as [| | |o now]; try done. destruct s as [h l]. simpl in *.
    unfold loop_step. simpl. destruct (at_pc l) eqn:E; simpl; try done.
    + unfold loop_wake. by rewrite Hr.
    + by rewrite E.
  - by destruct (step_other_frame s e El) as (-> & _).
Qed.

Lemma exec_after_stop_settled tr s :
  run s.1 = false -> sleeping_or_probing (at_pc s.2) ->
  sleeping_or_probing (at_pc (exec tr s).2).
Proof.
  revert s. induction tr as [|e tr IH]; intros s Hr Hp; [done |].
  change (exec (e :: tr) s) with (exec tr (step s e)).
  apply IH; [by apply step_after_stop | by apply step_after_stop_settled].
Qed.

Lemma exec_after_stop tr s :
  run s.1 = false ->
  (steps_to_flag (at_pc (exec tr s).2) <= steps_to_flag (at_pc s.2) - loop_steps tr)%nat.
Proof.
  unfold loop_steps. revert s. induction tr as [|e tr IH]; intros s Hr.
  - cbn. lia.
  - destruct (step_after_stop s e Hr) as [Hr' Hle].
    specialize (IH (step s e) Hr'). change (exec (e :: tr) s) with (exec tr (step s e)).
    destruct (is_loop_event e) eqn:El.
    + rewrite filter_cons_True by done. simpl. lia.
    + rewrite filter_cons_False by (rewrite El; done). lia.
Qed.

End Scheduler.

Section Sleep.

Context {Checker : Type}.
Implicit Types (h : Health Checker) (l : loop) (s : Health Checker * loop).
Implicit Types (tr : list (event Checker)).

Lemma int64_small (z : Z) : - 2 ^ 63 <= z < 2 ^ 63 -> int64 z = z.
Proof. intros Hz. unfold int64. rewrite Z.mod_small; lia. Qed.

Lemma loop_step_count o now h l :
  count (loop_step o now (h, l)).2 =
  match at_pc l with
  | Sleeping => Z.of_nat (length (Checks h)) + 1
  | _ => count l
  end.
Proof.
  unfold loop_step. simpl. destruct (at_pc l); simpl; try done.
  - unfold loop_wake. destruct (run h); simpl; [| done].
    destruct (decide (length (Checks h) <= nextIndex l)%nat);
      destruct (decide (0 < length (Checks h))%nat); simpl; done.
  - unfold loop_ref. by destruct (decide _).
Qed.

Lemma loop_step_firstPass o now h l :
  firstPass (loop_step o now (h, l)).2 =
  match at_pc l with
  | Sleeping =>
      firstPass l && negb (run h && bool_decide (length (Checks h) <= nextIndex l)%nat)
  | _ => firstPass l
  end.
Proof.
  unfold loop_step. simpl. destruct (at_pc l); simpl; try done.
  - unfold loop_wake. destruct (run h); simpl; [| by rewrite andb_true_r].
    destruct (decide (length (Checks h) <= nextIndex l)%nat);
      destruct (decide (0 < length (Checks h))%nat); simpl;
      rewrite ?bool_decide_eq_true_2, ?bool_decide_eq_false_2 by done; simpl;
      by rewrite ?andb_true_r, ?andb_false_r.
  - unfold loop_ref. by destruct (decide _).
Qed.

Lemma exec_loop_only tr s (n : nat) :
  Forall (fun e => is_loop_event e = true) tr ->
  length (Checks s.1) = n -> count s.2 = Z.of_nat n + 1 ->
  length (Checks (exec tr s).1) = n /\ count (exec tr s).2 = Z.of_nat n + 1.
Proof.
  intros Hall. revert s. induction Hall as [|e tr He _ IH]; intros s Hn Hc; [done |].
  change (exec (e :: tr) s) with (exec tr (step s e)).
  destruct e as [| | |o now]; try done. apply IH; simpl.
  - by rewrite loop_step_length.
  - destruct s as [h l]. rewrite loop_step_count. simpl in *. subst n.
    by destruct (at_pc l).
Qed.

(** C4 (as amended).  The loop is entered with [count] one more than the
    number of registered checks and with [firstPass] set.  Each sleep lasts
    10 ms while [firstPass] is set, and otherwise the frequency in
    nanoseconds ([int64] arithmetic) divided by [count]: the frequency in
    seconds divided by [count] when nothing overflows.  [count] and
    [firstPass] change only at the lock acquisition that follows a sleep:
    there [count] becomes the current number of checks plus one, and
    [firstPass] is cleared exactly when the loop is running and the cursor
    has reached the end of the slice.  So with no registration going on
    beside the loop, [count] is always the number of checks plus one. *)
Theorem sleepDuration_by_count (frequency : Z) (o : option error) (now : Z) h l tr :
  (count (RunCheckers_start h).2 = Z.of_nat (length (Checks h)) + 1 /\
   firstPass (RunCheckers_start h).2 = true /\
   sleepDuration frequency (RunCheckers_start h).2 = 10 * Millisecond)
  /\ (firstPass l = true -> sleepDuration frequency l = 10 * Millisecond)
  /\ (firstPass l = false ->
      sleepDuration frequency l = Z.quot (int64 (int64 frequency * Second)) (count l))
  /\ (firstPass l = false -> 0 <= frequency * Second < 2 ^ 63 -> 0 < count l ->
      sleepDuration frequency l = frequency * Second / count l)
  /\ count (loop_step o now (h, l)).2 =
     match at_pc l with
     | Sleeping => Z.of_nat (length (Checks h)) + 1
     | _ => count l
     end
  /\ firstPass (loop_step o now (h, l)).2 =
     match at_pc l with
     | Sleeping =>
         firstPass l && negb (run h && bool_decide (length (Checks h) <= nextIndex l)%nat)
     | _ => firstPass l
     end
  /\ (Forall (fun e => is_loop_event e = true) tr ->
      let s := exec tr (RunCheckers_start h) in
      count s.2 = Z.of_nat (length (Checks h)) + 1 /\
      sleepDuration frequency s.2 =
      if firstPass s.2 then 10 * Millisecond
      else Z.quot (int64 (int64 frequency * Second)) (Z.of_nat (length (Checks h)) + 1)).
Proof.
  split; [done |]. split; [by intros Hf; unfold sleepDuration; rewrite Hf |].
  split; [by intros Hf; unfold sleepDuration; rewrite Hf |].
  split.
  { intros Hf Hfreq Hc. unfold sleepDuration. rewrite Hf.
    assert (0 <= frequency) as H0 by (unfold Second in Hfreq; lia).
    assert (frequency < 2 ^ 63) as H1 by (unfold Second in Hfreq; lia).
    rewrite (int64_small frequency) by lia.
    rewrite int64_small by lia. apply Z.quot_div_nonneg; lia. }
  split; [apply loop_step_count |]. split; [apply loop_step_firstPass |].
  intros Hall s.
  destruct (exec_loop_only tr (RunCheckers_start h) (length (Checks h)) Hall) as [_ Hc];
    [done | done |].
  fold s in Hc. split; [done |]. unfold sleepDuration. by rewrite Hc.
Qed.

End Sleep.

(** A registry with two checks and a frequency of six seconds: the ten
    milliseconds are slept before each iteration of the first pass, and
    after it six seconds over three, not over two. *)
Lemma sleepDuration_by_count_witness :
  Forall (fun e => is_loop_event e = true) (replicate 9 (EvLoop (Checker := testChecker) None 1))
  /\ (let s := exec (replicate 9 (EvLoop None 1)) (RunCheckers_start two_checks) in
      count s.2 = 3 /\ firstPass s.2 = false /\ sleepDuration 6 s.2 = 2 * Second).
Proof.
  assert (Forall (fun e => is_loop_event e = true)
                 (replicate 9 (EvLoop (Checker := testChecker) None 1))) as Hall.
  { apply Forall_replicate. reflexivity. }
  split; [exact Hall |].
  pose proof (sleepDuration_by_count 6 None 1 two_checks (RunCheckers_start two_checks).2
                (replicate 9 (EvLoop None 1))) as (_ & _ & _ & _ & _ & _ & Hseq).
  destruct (Hseq Hall) as [Hc Hs]. cbv zeta.
  split; [exact Hc |]. split; [reflexivity |]. rewrite Hs. reflexivity.
Defined.

(** C4 fails as stated.  Two checks, a frequency of six seconds: the sleep
    before the second iteration is still the fixed 10 ms, and once the first
    pass is over the sleep is two seconds, where the claim has six seconds
    over max(1, 2), three seconds, both times. *)
Lemma sleepDuration_counterexample :
  let s1 := exec (replicate 3 (EvLoop None 1)) (RunCheckers_start two_checks) in
  let s3 := exec (replicate 9 (EvLoop None 1)) (RunCheckers_start two_checks) in
  (at_pc s1.2 = Sleeping /\ length (Checks s1.1) = 2%nat /\
   sleepDuration 6 s1.2 = 10 * Millisecond /\
   sleepDuration 6 s1.2 <> spec_sleepDuration 6 (length (Checks s1.1)) false)
  /\ (at_pc s3.2 = Sleeping /\ length (Checks s3.1) = 2%nat /\
      sleepDuration 6 s3.2 = 2 * Second /\
      spec_sleepDuration 6 (length (Checks s3.1)) false = 3 * Second /\
      sleepDuration 6 s3.2 <> spec_sleepDuration 6 (length (Checks s3.1)) false).
Proof.
  cbv zeta. repeat split; try reflexivity; vm_compute; discriminate.
Qed.

Section Lifetime.

Context {Checker : Type}.
Implicit Types (h : Health Checker) (l : loop) (s : Health Checker * loop).
Implicit Types (tr : list (event Checker)).

(** C9 (as amended).  While the [run] flag is set no step of the loop
    returns, whatever the probe answered; the step that completes a probe
    call goes back to sleep without looking at the flag; a step returns only
    as the lock acquisition that follows a sleep, with the flag cleared, and
    that acquisition does return once [StopCheckers] has cleared it.  Hence
    a loop that has returned was stopped by [StopCheckers]; and when the
    flag is cleared while the loop sleeps or is inside a probe call, the
    loop has returned after its next step in the first case and after its
    next two steps in the second, whatever other goroutines do meanwhile:
    the flag cleared during a probe call is seen one sleep after that call
    has completed. *)
Theorem loop_returns_only_when_stopped (o : option error) (now : Z) h l tr s :
  (run h = true -> at_pc l <> Returned -> at_pc (loop_step o now (h, l)).2 <> Returned)
  /\ (forall slot : nat,
        at_pc l = Probing slot -> at_pc (loop_step o now (h, l)).2 = Sleeping)
  /\ (at_pc (loop_step o now (h, l)).2 = Returned ->
      at_pc l = Returned \/ (at_pc l = Sleeping /\ run h = false))
  /\ (at_pc l = Sleeping -> at_pc (loop_step o now (StopCheckers h, l)).2 = Returned)
  /\ (at_pc (exec tr (RunCheckers_start h)).2 = Returned -> EvStopCheckers ∈ tr)
  /\ (run s.1 = false -> sleeping_or_probing (at_pc s.2) ->
      (steps_to_flag (at_pc s.2) <= loop_steps tr)%nat ->
      at_pc (exec tr s).2 = Returned).
Proof.
  split.
  { intros Hr Hp Hret. apply loop_step_Returned in Hret as [? | [_ ?]]; congruence. }
  split.
  { intros slot Hs. unfold loop_step. simpl. by rewrite Hs. }
  split; [apply loop_step_Returned |]. split.
  { intros Hs. unfold loop_step. simpl. rewrite Hs. done. }
  split.
  { apply exec_Returned_stopped; done. }
  intros Hr Hp Hn. pose proof (exec_after_stop tr s Hr) as Hle.
  pose proof (exec_after_stop_settled tr s Hr Hp) as Hset.
  assert (steps_to_flag (at_pc (exec tr s).2) = 0%nat) as H0 by lia.
  destruct (at_pc (exec tr s).2); simpl in H0, Hset; try discriminate; done.
Qed.

(** C10.  A fresh registry has the aggregate flag false.  [AddCheck] and
    [RemoveCheck] (which never panics) leave the aggregate flag and the
    [run] flag as they were, as does every event that is not a step of the
    loop as far as the aggregate goes.  So a fresh registry on which only
    such events have happened answers a status request with 418, or with
    500 when the encoding fails, never with 200. *)
Theorem fresh_registry_unhealthy (DefaultClient : Client)
    service (observeOnly : bool) (chk : Checker) h l tr
    (json_Marshal : Health Checker -> error + string)
    (w_Write : string -> Z * option error) :
  H_Healthy (MakeHealth (Checker := Checker) DefaultClient) = false
  /\ (H_Healthy (AddCheck service observeOnly chk h) = H_Healthy h /\
      run (AddCheck service observeOnly chk h) = run h)
  /\ (exists h', RemoveCheck service h = Some h' /\
                 H_Healthy h' = H_Healthy h /\ run h' = run h)
  /\ (forallb (fun e => negb (is_loop_event e)) tr = true ->
      let h' := (exec tr (MakeHealth DefaultClient, l)).1 in
      H_Healthy h' = false /\
      status (HTTPHandler json_Marshal w_Write h') =
      match json_Marshal h' with
      | inl _ => 500
      | inr _ => 418
      end).
Proof.
  split; [done |].
  split; [by destruct (AddCheck_frame service observeOnly chk h) as (-> & -> & _) |].
  split.
  { destruct (RemoveCheck_frame service h) as (h' & ? & ? & ? & _). by exists h'. }
  intros Hall h'.
  assert (H_Healthy h' = false) as Hh.
  { assert (forall s0, H_Healthy s0.1 = false -> H_Healthy (exec tr s0).1 = false) as Hgen.
    { induction tr as [|e tr IH]; intros s0 H0; [done |].
      simpl in Hall. apply andb_prop in Hall as [He Htr].
      change (exec (e :: tr) s0) with (exec tr (step s0 e)). apply IH; [done |].
      apply negb_true_iff in He.
      destruct (step_other_frame s0 e He) as (_ & _ & ->). done. }
    unfold h'. by apply Hgen. }
  split; [done |]. unfold HTTPHandler. rewrite Hh.
  destruct (json_Marshal h') as [e | data]; [done |]. by destruct (w_Write data).
Qed.

(** C6.  The handler answers 500 with an empty body when [json.Marshal]
    fails; otherwise it answers 200 when the aggregate flag is true and 418
    when it is false, and the bytes it writes are the encoding.  The
    content-type header is application/json in every case. *)
Theorem HTTPHandler_status (json_Marshal : Health Checker -> error + string)
    (w_Write : string -> Z * option error) h :
  header (HTTPHandler json_Marshal w_Write h) = [("content-type", "application/json")]
  /\ (forall e, json_Marshal h = inl e ->
        status (HTTPHandler json_Marshal w_Write h) = 500 /\
        body (HTTPHandler json_Marshal w_Write h) = "")
  /\ (forall data, json_Marshal h = inr data ->
        (H_Healthy h = true -> status (HTTPHandler json_Marshal w_Write h) = 200) /\
        (H_Healthy h = false -> status (HTTPHandler json_Marshal w_Write h) = 418) /\
        body (HTTPHandler json_Marshal w_Write h) = data).
Proof.
  unfold HTTPHandler. split.
  - destruct (json_Marshal h) as [e | data]; [done |]. by destruct (w_Write data).
  - split.
    + by intros e ->.
    + intros data ->. destruct (w_Write data) as [written e]. simpl.
      repeat split; by intros ->.
Qed.

End Lifetime.

(** The second iteration over [two_checks] probes the observe-only check,
    which fails: the aggregate stays true. *)
Lemma aggregate_after_iteration_witness :
  let s := exec (replicate 5 (EvLoop None 1)) (RunCheckers_start two_checks) in
  at_pc (loop_step (Some "Generic Error") 2 (s.1, s.2)).2 = Sleeping /\
  Healthy <$> Checks (loop_step (Some "Generic Error") 2 (s.1, s.2)).1 = [true; false] /\
  H_Healthy (loop_step (Some "Generic Error") 2 (s.1, s.2)).1 = true.
Proof.
  cbv zeta.
  set (s := exec (replicate 5 (EvLoop None 1)) (RunCheckers_start two_checks)).
  assert (at_pc (loop_step (Some "Generic Error") 2 (s.1, s.2)).2 = Sleeping) as Hat
    by reflexivity.
  split; [exact Hat |]. split; [reflexivity |].
  destruct (aggregate_after_iteration (Some "Generic Error") 2 s.1 s.2 Hat) as (Hiff & _).
  apply Hiff. intros c Hc Ho.
  vm_compute in Hc.
  apply elem_of_cons in Hc as [-> | Hc]; [reflexivity |].
  apply elem_of_cons in Hc as [-> | Hc]; [discriminate Ho |].
  by apply not_elem_of_nil in Hc.
Defined.

(** C9 fails as stated.  [StopCheckers] is called while the loop is inside
    the probe call of its first iteration.  The call completes and the loop
    takes the mutex again (line 152), but does not return there: it finishes
    the iteration and sleeps, and returns at the acquisition after that
    sleep. *)
Lemma stop_during_probe_counterexample :
  let s := exec [EvLoop None 1; EvLoop None 1; EvStopCheckers]
                (RunCheckers_start one_check) in
  at_pc s.2 = Probing 0 /\ run s.1 = false /\
  at_pc (step s (EvLoop None 2)).2 = Sleeping /\
  at_pc (step s (EvLoop None 2)).2 <> Returned /\
  at_pc (exec [EvLoop None 2; EvLoop None 3] s).2 = Returned.
Proof.
  cbv zeta. repeat split; try reflexivity. vm_compute. discriminate.
Qed.

Lemma loop_returns_only_when_stopped_witness :
  (let s := exec [EvLoop None 1; EvLoop None 1] (RunCheckers_start one_check) in
   run s.1 = true /\ at_pc s.2 = Probing 0 /\
   at_pc (loop_step (Some "Generic Error") 2 (s.1, s.2)).2 <> Returned)
  /\ (let s := exec [EvLoop None 1; EvLoop None 1; EvStopCheckers]
                    (RunCheckers_start one_check) in
      run s.1 = false /\ at_pc s.2 = Probing 0 /\
      at_pc (exec [EvLoop None 2; EvAddCheck "web" false successChecker; EvLoop None 3] s).2
      = Returned).
Proof.
  cbv zeta. split.
  - set (s := exec [EvLoop None 1; EvLoop None 1] (RunCheckers_start one_check)).
    assert (run s.1 = true) as Hr by reflexivity.
    assert (at_pc s.2 <> Returned) as Hp by (vm_compute; discriminate).
    destruct (loop_returns_only_when_stopped (Some "Generic Error") 2 s.1 s.2 [] s)
      as (Hkeep & _).
    split; [exact Hr |]. split; [reflexivity | exact (Hkeep Hr Hp)].
  - set (s := exec [EvLoop None 1; EvLoop None 1; EvStopCheckers]
                   (RunCheckers_start one_check)).
    assert (run s.1 = false) as Hr by reflexivity.
    assert (sleeping_or_probing (at_pc s.2)) as Hp by exact I.
    assert (steps_to_flag (at_pc s.2)
            <= loop_steps [EvLoop (Checker := testChecker) None 2;
                           EvAddCheck "web" false successChecker; EvLoop None 3])%nat as Hn
      by (vm_compute; lia).
    destruct (loop_returns_only_when_stopped None 1 s.1 s.2
                [EvLoop None 2; EvAddCheck "web" false successChecker; EvLoop None 3] s)
      as (_ & _ & _ & _ & _ & Hstop).
    split; [exact Hr |]. split; [reflexivity | exact (Hstop Hr Hp Hn)].
Defined.

Lemma fresh_registry_unhealthy_witness :
  forallb (fun e => negb (is_loop_event e))
          [EvAddCheck "db" false successChecker; EvRemoveCheck "web"; EvStopCheckers] = true
  /\ status (HTTPHandler marshal_ok write_all
               (exec [EvAddCheck "db" false successChecker; EvRemoveCheck "web"; EvStopCheckers]
                     (MakeHealth deadClient, mkLoop 0 true 1 Sleeping)).1) = 418.
Proof.
  assert (forallb (fun e => negb (is_loop_event e))
            [EvAddCheck "db" false successChecker; EvRemoveCheck "web"; EvStopCheckers] = true)
    as Hall by reflexivity.
  split; [exact Hall |].
  destruct (fresh_registry_unhealthy deadClient "db" false successChecker
              (MakeHealth deadClient) (mkLoop 0 true 1 Sleeping)
              [EvAddCheck "db" false successChecker; EvRemoveCheck "web"; EvStopCheckers]
              marshal_ok write_all) as (_ & _ & _ & Hfresh).
  destruct (Hfresh Hall) as [_ Hs]. exact Hs.
Defined.

Lemma HTTPHandler_status_witness :
  (let h := (exec (replicate 3 (EvLoop None 1)) (RunCheckers_start one_check)).1 in
   H_Healthy h = true /\ status (HTTPHandler marshal_ok write_all h) = 200 /\
   body (HTTPHandler marshal_ok write_all h) = "{}")
  /\ status (HTTPHandler marshal_ok write_all one_check) = 418
  /\ status (HTTPHandler (fun _ => inl "unsupported type") write_all one_check) = 500.
Proof.
  cbv zeta.
  set (h := (exec (replicate 3 (EvLoop None 1)) (RunCheckers_start one_check)).1).
  destruct (HTTPHandler_status marshal_ok write_all h) as (_ & _ & Hok).
  destruct (Hok "{}" eq_refl) as (H200 & _ & Hbody).
  destruct (HTTPHandler_status marshal_ok write_all one_check) as (_ & _ & Hok').
  destruct (Hok' "{}" eq_refl) as (_ & H418 & _).
  destruct (HTTPHandler_status (fun _ => inl "unsupported type") write_all one_check)
    as (_ & Herr & _).
  split; [split; [reflexivity | split; [exact (H200 eq_refl) | exact Hbody]] |].
  split; [exact (H418 eq_refl) | exact (proj1 (Herr "unsupported type" eq_refl))].
Defined.

(** * Further properties of the registry and of the loop *)

Section RegistryMore.

Context {Checker : Type}.
Implicit Types (h : Health Checker) (c : healthIndicator Checker) (l : loop).
Implicit Types (cs : list (healthIndicator Checker)) (s : Health Checker * loop).
Implicit Types (e : event Checker) (tr : list (event Checker)) (service : string).

(** ** What [RemoveCheck] and [AddCheck] do to the slice *)

Lemma RemoveCheck_present service h :
  service ∈ names h ->
  exists (idx : nat) c last,
    Checks h !! idx = Some c /\ Service c = service /\
    Checks h !! (length (Checks h) - 1)%nat = Some last /\
    RemoveCheck service h =
    Some (set_Checks (take (length (Checks h) - 1) (<[idx := last]> (Checks h))) h) /\
    take (length (Checks h) - 1) (<[idx := last]> (Checks h)) ≡ₚ delete idx (Checks h).
Proof.
  intros Hin. unfold RemoveCheck.
  destruct (lookup_service_is_Some service 0 (Checks h) Hin) as [[idx c] Hl].
  rewrite Hl. apply lookup_service_Some in Hl as (j & -> & Hj & Hs & _).
  simpl in *. pose proof (lookup_lt_Some _ _ _ Hj) as Hlt.
  destruct (removeChecker_Some (Checks h) j Hlt) as (last & Hlast & ->).
  exists j, c, last. repeat split; try done.
  by apply swap_truncate_Permutation.
Qed.

Lemma RemoveCheck_absent service h :
  service ∉ names h -> RemoveCheck service h = Some h.
Proof.
  intros Hn. unfold RemoveCheck.
  apply (lookup_service_None service 0) in Hn. by rewrite Hn.
Qed.

Lemma RemoveCheck_length service h h' :
  service ∈ names h -> RemoveCheck service h = Some h' ->
  S (length (Checks h')) = length (Checks h).
Proof.
  intros Hin Hr.
  destruct (RemoveCheck_present service h Hin) as (idx & c & last & Hi & _ & _ & Hr' & Hp).
  rewrite Hr' in Hr. injection Hr as <-. simpl. rewrite Hp.
  rewrite length_delete by eauto. pose proof (lookup_lt_Some _ _ _ Hi). lia.
Qed.

Lemma AddCheck_length service (observeOnly : bool) (chk : Checker) h :
  (length (Checks h) <= length (Checks (AddCheck service observeOnly chk h)))%nat.
Proof.
  destruct (decide (service ∈ names h)) as [Hin | Hn].
  - by rewrite AddCheck_present.
  - rewrite AddCheck_absent by done. simpl. rewrite length_app. lia.
Qed.

(** ** The slot address and concurrent removal *)

(** X1.  The slot address of line 151 is computed after the mutex has been
    released at line 150.  When a [RemoveCheck] of a registered name gets in
    between, the loop goroutine panics on the index expression exactly when
    the cursor stood on the last slot; otherwise it goes on to probe the
    slot, whatever entry is in it now. *)
Theorem removal_before_slot_address (o : option error) (now : Z) h h' l service :
  at_pc l = Unlocked -> (nextIndex l < length (Checks h))%nat ->
  service ∈ names h -> RemoveCheck service h = Some h' ->
  (at_pc (loop_step o now (h', l)).2 = Panicked <->
   nextIndex l = (length (Checks h) - 1)%nat)
  /\ (at_pc (loop_step o now (h', l)).2 = Probing (nextIndex l) <->
      (nextIndex l < length (Checks h) - 1)%nat).
Proof.
  intros Hat Hlt Hin Hr. pose proof (RemoveCheck_length _ _ _ Hin Hr) as Hlen.
  unfold loop_step. simpl. rewrite Hat. unfold loop_ref.
  destruct (decide (nextIndex l < length (Checks h'))%nat); simpl; split; split;
    try done; try lia; intros; exfalso; lia.
Qed.

(** ** No panic without a removal *)

Lemma step_slot_in_range s e :
  is_remove_event e = false ->
  at_pc s.2 <> Panicked ->
  (at_pc s.2 = Unlocked -> (nextIndex s.2 < length (Checks s.1))%nat) ->
  at_pc (step s e).2 <> Panicked /\
  (at_pc (step s e).2 = Unlocked ->
   (nextIndex (step s e).2 < length (Checks (step s e).1))%nat).
Proof.
  intros He Hp Hu. destruct s as [h l].
  destruct e as [service oo chk | service | | o now]; simpl in *; try done.
  - split; [done |]. intros Hat.
    pose proof (AddCheck_length service oo chk h). specialize (Hu Hat). lia.
  - unfold loop_step. simpl. destruct (at_pc l) eqn:E; simpl.
    + unfold loop_wake. destruct (run h); simpl; [| done].
      destruct (decide (length (Checks h) <= nextIndex l)%nat);
        destruct (decide (0 < length (Checks h))%nat); simpl; split; try done;
        intros _; lia.
    + unfold loop_ref. destruct (decide _); simpl; [done |]. specialize (Hu eq_refl). lia.
    + done.
    + rewrite E. done.
    + done.
Qed.

Lemma exec_slot_in_range tr s :
  forallb (fun e => negb (is_remove_event e)) tr = true ->
  at_pc s.2 <> Panicked ->
  (at_pc s.2 = Unlocked -> (nextIndex s.2 < length (Checks s.1))%nat) ->
  at_pc (exec tr s).2 <> Panicked.
Proof.
  revert s. induction tr as [|e tr IH]; intros s Hall Hp Hu; [done |].
  simpl in Hall. apply andb_prop in Hall as [He Htr]. apply negb_true_iff in He.
  change (exec (e :: tr) s) with (exec tr (step s e)).
  destruct (step_slot_in_range s e He Hp Hu). by apply IH.
Qed.

(** X2.  As long as nobody calls [RemoveCheck], the loop never panics:
    whatever the interleaving of [AddCheck] and [StopCheckers] calls with
    the steps of the loop, and whatever the probes answer, the index
    expression of line 151 is in range when it is evaluated. *)
Theorem no_panic_without_removal h tr :
  forallb (fun e => negb (is_remove_event e)) tr = true ->
  at_pc (exec tr (RunCheckers_start h)).2 <> Panicked.
Proof. intros Hall. apply exec_slot_in_range; done. Qed.

(** ** After the loop has ended *)

Lemma step_ended s e :
  at_pc s.2 = Returned \/ at_pc s.2 = Panicked ->
  (step s e).2 = s.2 /\ H_Healthy (step s e).1 = H_Healthy s.1.
Proof.
  intros Hend. destruct (is_loop_event e) eqn:El.
  - destruct e as [| | |o now]; try done. simpl. unfold loop_step.
    by destruct Hend as [-> | ->].
  - by destruct (step_other_frame s e El) as (-> & _ & ->).
Qed.

(** X3.  Once the loop has returned or panicked, nothing ever writes the
    aggregate flag again: after any further calls of [AddCheck],
    [RemoveCheck] and [StopCheckers] the flag is what the last completed
    iteration left, and the loop stays where it ended. *)
Theorem aggregate_frozen_after_loop_end s tr :
  at_pc s.2 = Returned \/ at_pc s.2 = Panicked ->
  (exec tr s).2 = s.2 /\ H_Healthy (exec tr s).1 = H_Healthy s.1.
Proof.
  revert s. induction tr as [|e tr IH]; intros s Hend; [done |].
  change (exec (e :: tr) s) with (exec tr (step s e)).
  destruct (step_ended s e Hend) as [Hl Hh].
  destruct (IH (step s e)) as [Hl' Hh']; [by rewrite Hl |].
  split; congruence.
Qed.

End RegistryMore.

Section Rotation.

Context {Checker : Type}.
Implicit Types (h : Health Checker) (l : loop) (s : Health Checker * loop).
Implicit Types (cs : list (healthIndicator Checker)) (r : option error * Z).
Implicit Types (rs : list (option error * Z)).

Lemma mod_succ (n a : nat) :
  (0 < n)%nat ->
  (S a mod n = if decide (n <= a mod n + 1) then 0 else a mod n + 1)%nat.
Proof.
  intros Hn. pose proof (Nat.div_mod_eq a n) as Ha.
  pose proof (Nat.mod_upper_bound a n ltac:(lia)) as Hm.
  destruct (decide (n <= a mod n + 1)%nat).
  - symmetry. apply (Nat.mod_unique _ _ (S (a / n))); lia.
  - symmetry. apply (Nat.mod_unique _ _ (a / n)); lia.
Qed.

(** One iteration, from the sleep to the next sleep. *)
Lemma iteration_Sleeping h l r :
  run h = true -> (0 < length (Checks h))%nat -> at_pc l = Sleeping ->
  let idx := if decide (length (Checks h) <= nextIndex l)%nat then 0%nat
             else nextIndex l in
  let cs' := alter (runChecker r.1 r.2) idx (Checks h) in
  iteration (h, l) r =
  (set_Healthy (recompute cs') (set_Checks cs' h),
   mkLoop (S idx)
          (if decide (length (Checks h) <= nextIndex l)%nat then false else firstPass l)
          (Z.of_nat (length (Checks h)) + 1) Sleeping).
Proof.
  intros Hr Hn Hat. unfold iteration, loop_step. simpl. rewrite Hat.
  unfold loop_wake. rewrite Hr. simpl.
  destruct (decide (length (Checks h) <= nextIndex l)%nat) as [Hle | Hgt]; simpl;
    rewrite decide_True by done; simpl; unfold loop_ref; simpl;
    rewrite decide_True by lia; simpl; done.
Qed.

Lemma iteration_invariant (n k : nat) s r :
  (0 < n)%nat ->
  run s.1 = true -> length (Checks s.1) = n -> at_pc s.2 = Sleeping ->
  nextIndex s.2 = cursor_after n k -> firstPass s.2 = bool_decide (k <= n)%nat ->
  let s' := iteration s r in
  Checks s'.1 = alter (runChecker r.1 r.2) (k mod n)%nat (Checks s.1) /\
  H_Healthy s'.1 = recompute (Checks s'.1) /\
  run s'.1 = true /\ length (Checks s'.1) = n /\ at_pc s'.2 = Sleeping /\
  count s'.2 = Z.of_nat n + 1 /\
  nextIndex s'.2 = cursor_after n (S k) /\
  firstPass s'.2 = bool_decide (S k <= n)%nat.
Proof.
  intros Hn Hr Hlen Hat Hcur Hfp s'. destruct s as [h l]. simpl in *.
  unfold s'. rewrite iteration_Sleeping by (done || lia). simpl.
  rewrite Hlen, Hcur, Hfp.
  assert ((if decide (n <= cursor_after n k)%nat then 0%nat else cursor_after n k)
          = (k mod n)%nat) as Hidx.
  { destruct k as [|k']; simpl.
    - rewrite decide_False by lia. by rewrite Nat.Div0.mod_0_l.
    - rewrite (mod_succ n k') by done. by destruct (decide _). }
  rewrite Hidx. rewrite length_alter, Hlen.
  repeat split; try done; [simpl; lia |].
  destruct k as [|k']; simpl.
  - rewrite decide_False by lia. rewrite !bool_decide_eq_true_2 by lia. done.
  - pose proof (Nat.mod_upper_bound k' n ltac:(lia)) as Hm.
    pose proof (Nat.Div0.mod_le k' n) as Hle.
    destruct (decide (n <= k' mod n + 1)%nat) as [H1 | H1].
    + rewrite bool_decide_eq_false_2 by lia. done.
    + destruct (decide (S k' <= n)%nat) as [H2 | H2].
      * rewrite bool_decide_eq_true_2 by done.
        rewrite bool_decide_eq_true_2; [done |].
        rewrite Nat.mod_small in H1 by lia. lia.
      * rewrite bool_decide_eq_false_2 by done. rewrite bool_decide_eq_false_2 by lia. done.
Qed.

Lemma iterations_invariant (n : nat) rs :
  (0 < n)%nat ->
  forall (k : nat) s,
    run s.1 = true -> length (Checks s.1) = n -> at_pc s.2 = Sleeping ->
    count s.2 = Z.of_nat n + 1 ->
    nextIndex s.2 = cursor_after n k -> firstPass s.2 = bool_decide (k <= n)%nat ->
    let s' := iterations rs s in
    Checks s'.1 = round_robin k rs (Checks s.1) /\
    (rs <> [] -> H_Healthy s'.1 = recompute (Checks s'.1)) /\
    run s'.1 = true /\ length (Checks s'.1) = n /\ at_pc s'.2 = Sleeping /\
    count s'.2 = Z.of_nat n + 1 /\
    nextIndex s'.2 = cursor_after n (k + length rs) /\
    firstPass s'.2 = bool_decide (k + length rs <= n)%nat.
Proof.
  intros Hn. induction rs as [|r rs IH]; intros k s Hr Hlen Hat Hc Hcur Hfp s'.
  - unfold s'. simpl. rewrite Nat.add_0_r. repeat split; done.
  - unfold s'. change (iterations (r :: rs) s) with (iterations rs (iteration s r)).
    destruct (iteration_invariant n k s r Hn Hr Hlen Hat Hcur Hfp)
      as (Hcs & Hh & Hr' & Hlen' & Hat' & Hc' & Hcur' & Hfp').
    destruct (IH (S k) (iteration s r) Hr' Hlen' Hat' Hc' Hcur' Hfp')
      as (Hcs2 & Hh2 & Hr2 & Hlen2 & Hat2 & Hc2 & Hcur2 & Hfp2).
    simpl length. replace (k + S (length rs))%nat with (S k + length rs)%nat by lia.
    repeat split; try done.
    + rewrite Hcs2, Hcs. simpl. by rewrite Hlen.
    + intros _. destruct rs as [|r' rs']; [exact Hh | by apply Hh2].
Qed.

Lemma cursor_slot (n k : nat) :
  (0 < n)%nat ->
  (if decide (n <= cursor_after n k)%nat then 0%nat else cursor_after n k) = (k mod n)%nat.
Proof.
  intros Hn. destruct k as [|k']; simpl.
  - rewrite decide_False by lia. by rewrite Nat.Div0.mod_0_l.
  - rewrite (mod_succ n k') by done. by destruct (decide _).
Qed.

Lemma wake_then_slot_address (o : option error) (now : Z) h l :
  run h = true -> (0 < length (Checks h))%nat -> at_pc l = Sleeping ->
  at_pc (loop_step o now (loop_step o now (h, l))).2 =
  Probing (if decide (length (Checks h) <= nextIndex l)%nat then 0%nat else nextIndex l).
Proof.
  intros Hr Hn Hat. unfold loop_step. simpl. rewrite Hat. unfold loop_wake.
  rewrite Hr. simpl.
  destruct (decide (length (Checks h) <= nextIndex l)%nat); simpl;
    rewrite decide_True by done; simpl; unfold loop_ref; simpl;
    rewrite decide_True by lia; done.
Qed.

Lemma round_robin_first_pass rs :
  forall visited todo : list (healthIndicator Checker),
    length rs = length todo ->
    round_robin (length visited) rs (visited ++ todo)%list =
    (visited ++ zip_with (fun c r => runChecker r.1 r.2 c) todo rs)%list.
Proof.
  induction rs as [|r rs IH]; intros visited todo Hlen.
  - destruct todo; [done | discriminate].
  - destruct todo as [|c todo]; [discriminate |]. simpl in Hlen.
    change (round_robin (length visited) (r :: rs) (visited ++ c :: todo)%list)
      with (round_robin (S (length visited)) rs
              (alter (runChecker r.1 r.2)
                     (length visited mod length (visited ++ c :: todo)%list)%nat
                     (visited ++ c :: todo)%list)).
    rewrite Nat.mod_small by (rewrite length_app; simpl; lia).
    rewrite alter_app_r_alt, Nat.sub_diag by lia. simpl.
    replace (S (length visited))
      with (length (visited ++ [runChecker r.1 r.2 c])%list)
      by (rewrite length_app; simpl; lia).
    replace (visited ++ runChecker r.1 r.2 c :: todo)%list
      with ((visited ++ [runChecker r.1 r.2 c]) ++ todo)%list
      by (by rewrite <- app_assoc).
    rewrite IH by lia. by rewrite <- app_assoc.
Qed.

(** X4.  With at least one check registered and no other goroutine at
    work, the loop is a round robin: after any number of iterations the
    entries are what recording the probe answers slot after slot, modulo the
    number of checks, gives; the aggregate has been recomputed from them;
    and the next iteration probes the slot numbered by the iterations made so
    far modulo the number of checks. *)
Theorem rotation_is_round_robin (o : option error) (now : Z) h rs :
  (0 < length (Checks h))%nat ->
  let s := iterations rs (RunCheckers_start h) in
  Checks s.1 = round_robin 0 rs (Checks h) /\
  (rs <> [] -> H_Healthy s.1 = recompute (Checks s.1)) /\
  at_pc s.2 = Sleeping /\
  at_pc (loop_step o now (loop_step o now s)).2
  = Probing (length rs mod length (Checks h))%nat.
Proof.
  intros Hn s.
  destruct (iterations_invariant (length (Checks h)) rs Hn 0%nat (RunCheckers_start h))
    as (Hcs & Hh & Hr & Hlen & Hat & _ & Hcur & _); try done.
  fold s in Hcs, Hh, Hr, Hlen, Hat, Hcur.
  repeat split; try done.
  destruct s as [h' l']. simpl in *.
  rewrite wake_then_slot_address by (done || lia).
  rewrite Hlen, Hcur. by rewrite cursor_slot.
Qed.

(** X5.  The first rotation visits every check exactly once, in slice
    order: after as many iterations as there are checks, with no other
    goroutine at work, entry number i carries the outcome of the i-th probe
    call. *)
Theorem first_rotation_visits_each_once h rs :
  length rs = length (Checks h) ->
  Checks (iterations rs (RunCheckers_start h)).1
  = zip_with (fun c r => runChecker r.1 r.2 c) (Checks h) rs.
Proof.
  intros Hlen. destruct (decide (0 < length (Checks h))%nat) as [Hn | Hn].
  - destruct (iterations_invariant (length (Checks h)) rs Hn 0%nat (RunCheckers_start h))
      as (Hcs & _); try done.
    rewrite Hcs. simpl. apply (round_robin_first_pass rs [] (Checks h) Hlen).
  - destruct rs as [|r rs]; [| simpl in Hlen; lia].
    destruct (Checks h) eqn:E; [by simpl; rewrite E | simpl in Hn; lia].
Qed.

(** X6.  With at least one check registered and no other goroutine at
    work, the fast first pass lasts one iteration more than there are
    checks: the sleep that follows k iterations is the fixed 10 ms when k is
    at most the number of checks, and afterwards the frequency in
    nanoseconds divided by the number of checks plus one. *)
Theorem first_pass_sleeps (frequency : Z) h rs :
  (0 < length (Checks h))%nat ->
  let s := iterations rs (RunCheckers_start h) in
  firstPass s.2 = bool_decide (length rs <= length (Checks h))%nat /\
  sleepDuration frequency s.2 =
  if decide (length rs <= length (Checks h))%nat then 10 * Millisecond
  else Z.quot (int64 (int64 frequency * Second)) (Z.of_nat (length (Checks h)) + 1).
Proof.
  intros Hn s.
  destruct (iterations_invariant (length (Checks h)) rs Hn 0%nat (RunCheckers_start h))
    as (_ & _ & _ & _ & _ & Hc & _ & Hfp); try done.
  fold s in Hc, Hfp. simpl in Hfp. split; [done |].
  unfold sleepDuration. rewrite Hfp, Hc.
  destruct (decide (length rs <= length (Checks h))%nat).
  - by rewrite bool_decide_eq_true_2.
  - by rewrite bool_decide_eq_false_2.
Qed.

End Rotation.

Section Invariants.

Context {Checker : Type}.
Implicit Types (h : Health Checker) (c : healthIndicator Checker) (l : loop).
Implicit Types (cs : list (healthIndicator Checker)) (s : Health Checker * loop).
Implicit Types (e : event Checker) (tr : list (event Checker)) (service : string).

(** ** [removeChecker] slot by slot *)

(** X7.  [removeChecker] panics exactly when the index is out of range (on
    the empty slice always).  In range it returns one entry fewer: the former
    last element now stands at the index removed and every other entry has
    kept its index. *)
Theorem removeChecker_slots cs (i : nat) :
  (removeChecker cs i = None <-> (length cs <= i)%nat)
  /\ (forall cs', removeChecker cs i = Some cs' ->
        S (length cs') = length cs /\
        (forall j : nat, (j < length cs')%nat -> j <> i -> cs' !! j = cs !! j) /\
        ((i < length cs')%nat -> cs' !! i = cs !! (length cs - 1)%nat)).
Proof.
  split.
  - unfold removeChecker. split.
    + destruct (cs !! (length cs - 1)%nat) eqn:E.
      * destruct (decide (i < length cs)%nat); [done | lia].
      * intros _. apply lookup_ge_None in E. lia.
    + intros Hle. destruct (cs !! (length cs - 1)%nat); [| done].
      by rewrite decide_False by lia.
  - intros cs' Hr. unfold removeChecker in Hr.
    destruct (cs !! (length cs - 1)%nat) as [last|] eqn:E; [| done].
    destruct (decide (i < length cs)%nat) as [Hi|]; [| done].
    injection Hr as <-.
    assert (length (take (length cs - 1) (<[i:=last]> cs)) = (length cs - 1)%nat) as Hlen.
    { rewrite length_take, length_insert. lia. }
    rewrite Hlen. split; [lia |]. split.
    + intros j Hj Hne. rewrite lookup_take_lt by done.
      by rewrite list_lookup_insert_ne.
    + intros Hi'. rewrite lookup_take_lt by done.
      rewrite list_lookup_insert_eq by done. done.
Qed.

(** ** Adding and removing again *)

Lemma lookup_service_app service (idx : nat) cs cs' :
  service ∉ Service <$> cs ->
  lookup_service service idx (cs ++ cs') = lookup_service service (idx + length cs) cs'.
Proof.
  revert idx. induction cs as [|c cs IH]; intros idx Hn; simpl.
  - by rewrite Nat.add_0_r.
  - rewrite fmap_cons in Hn. apply not_elem_of_cons in Hn as [Hne Hn].
    rewrite decide_False by congruence. rewrite IH by done. f_equal. lia.
Qed.

(** X8.  Registering a name that is not there and removing it again gives
    back the registry as it was, entry for entry and in the same order. *)
Theorem AddCheck_RemoveCheck_roundtrip service (observeOnly : bool) (chk : Checker) h :
  service ∉ names h ->
  RemoveCheck service (AddCheck service observeOnly chk h) = Some h.
Proof.
  intros Hn. rewrite AddCheck_absent by done. unfold RemoveCheck. simpl.
  rewrite lookup_service_app by done. simpl. rewrite decide_True by done.
  unfold removeChecker. rewrite length_app. simpl.
  replace (length (Checks h) + 1 - 1)%nat with (length (Checks h)) by lia.
  rewrite lookup_app_r, Nat.sub_diag by lia. simpl.
  rewrite decide_True by lia.
  rewrite insert_app_r_alt, Nat.sub_diag by lia. simpl.
  rewrite take_app_length. by destruct h.
Qed.

(** ** Invariants of every reachable registry *)

Lemma runChecker_registration (o : option error) (now : Z) c :
  registration (runChecker o now c) = registration c.
Proof. by destruct o. Qed.


Lemma alter_runChecker_registration (o : option error) (now : Z) (slot : nat) cs :
  registration <$> alter (runChecker o now) slot cs = registration <$> cs.
Proof.
  apply list_eq. intros j. rewrite !list_lookup_fmap.
  destruct (decide (j = slot)) as [-> | Hne].
  - rewrite list_lookup_alter_eq. destruct (cs !! slot); simpl; [| done].
    by rewrite runChecker_registration.
  - by rewrite list_lookup_alter_ne.
Qed.

Lemma loop_step_Checks (o : option error) (now : Z) s :
  Checks (loop_step o now s).1 =
  match at_pc s.2 with
  | Probing slot => alter (runChecker o now) slot (Checks s.1)
  | _ => Checks s.1
  end.
Proof.
  destruct s as [h l]. unfold loop_step. simpl. destruct (at_pc l); simpl; try done.
  - unfold loop_wake. destruct (run h); simpl; [| done].
    destruct (decide (length (Checks h) <= nextIndex l)%nat);
      destruct (decide (0 < length (Checks h))%nat); simpl; done.
  - unfold loop_ref. by destruct (decide _).
Qed.

(** X9.  A step of the loop never registers, removes, renames or re-flags
    a check, and never touches the [run] flag or the client: names,
    observe-only flags and probes are the same before and after, slot by
    slot.  Only the step that completes a probe call changes an entry at
    all, and only the one in the slot probed. *)
Theorem loop_step_frame (o : option error) (now : Z) s :
  registration <$> Checks (loop_step o now s).1 = registration <$> Checks s.1
  /\ run (loop_step o now s).1 = run s.1
  /\ httpClient (loop_step o now s).1 = httpClient s.1
  /\ ((forall slot : nat, at_pc s.2 <> Probing slot) ->
      Checks (loop_step o now s).1 = Checks s.1)
  /\ (forall slot j : nat, at_pc s.2 = Probing slot -> j <> slot ->
        Checks (loop_step o now s).1 !! j = Checks s.1 !! j).
Proof.
  split.
  { rewrite loop_step_Checks. destruct (at_pc s.2); try done.
    apply alter_runChecker_registration. }
  split; [apply loop_step_run |]. split.
  { destruct s as [h l]. unfold loop_step. simpl. destruct (at_pc l); simpl; try done.
    - unfold loop_wake. destruct (run h); simpl; [| done].
      destruct (decide (length (Checks h) <= nextIndex l)%nat);
        destruct (decide (0 < length (Checks h))%nat); simpl; done.
    - unfold loop_ref. by destruct (decide _). }
  split.
  - intros Hno. rewrite loop_step_Checks. destruct (at_pc s.2) eqn:E; try done.
    by destruct (Hno slot).
  - intros slot j Hat Hne. rewrite loop_step_Checks, Hat.
    by rewrite list_lookup_alter_ne.
Qed.


Lemma RemoveCheck_Forall (P : healthIndicator Checker -> Prop) service h h' :
  RemoveCheck service h = Some h' -> Forall P (Checks h) -> Forall P (Checks h').
Proof.
  intros Hr Hall. destruct (decide (service ∈ names h)) as [Hin | Hn].
  - destruct (RemoveCheck_present service h Hin) as (idx & c & last & _ & _ & _ & Hr' & Hp).
    rewrite Hr' in Hr. injection Hr as <-. simpl. rewrite Hp. by apply Forall_delete.
  - rewrite RemoveCheck_absent in Hr by done. by injection Hr as <-.
Qed.





End Invariants.

Section AggregateMore.

Context {Checker : Type}.
Implicit Types (h : Health Checker) (c : healthIndicator Checker) (l : loop).
Implicit Types (cs : list (healthIndicator Checker)) (s : Health Checker * loop).
Implicit Types (service : string).

Lemma recompute_Forall cs :
  recompute cs = true <->
  Forall (fun c => ObserveOnly c || Healthy c = true) cs.
Proof.
  rewrite recompute_forallb, forallb_forall, Forall_forall.
  split; intros H c Hc; apply H; by apply list_elem_of_In.
Qed.

Lemma recompute_app cs cs' :
  recompute (cs ++ cs') = recompute cs && recompute cs'.
Proof. by rewrite !recompute_forallb, forallb_app. Qed.

(** X12.  Registration and the aggregate that the next iteration will
    compute: a check just added counts as healthy, so [AddCheck] never
    changes the aggregate recomputed from the entries; [RemoveCheck] can
    turn it from false to true but never from true to false; and with one
    critical entry unhealthy it is false whatever the other entries say. *)
Theorem recompute_under_registration service (observeOnly : bool) (chk : Checker) h :
  recompute (Checks (AddCheck service observeOnly chk h)) = recompute (Checks h)
  /\ (forall h', RemoveCheck service h = Some h' ->
        recompute (Checks h) = true -> recompute (Checks h') = true)
  /\ (forall c, c ∈ Checks h -> ObserveOnly c = false -> Healthy c = false ->
        recompute (Checks h) = false).
Proof.
  split.
  { destruct (decide (service ∈ names h)) as [Hin | Hn].
    - by rewrite AddCheck_present.
    - rewrite AddCheck_absent by done. simpl. rewrite recompute_app.
      rewrite andb_comm. unfold recompute at 1. simpl. by destruct observeOnly. }
  split.
  - intros h' Hr Ht. apply recompute_Forall. apply recompute_Forall in Ht.
    by eapply RemoveCheck_Forall.
  - intros c Hc Ho Hh. destruct (recompute (Checks h)) eqn:E; [| done].
    pose proof (proj1 (recompute_true (Checks h)) E c Hc Ho) as Ht. congruence.
Qed.

(** X13.  An entry keeps no history: the status left by a run of the probe
    depends on the entry's name and on that run alone, so running twice
    leaves what the second run alone would have left; lastChecked is always
    a [uint64], equal to the clock reading when that is not negative and
    wrapped around by 2^64 when it is. *)
Theorem runChecker_last_run_wins (o1 o2 : option error) (now1 now2 : Z) c :
  runChecker o2 now2 (runChecker o1 now1 c) = runChecker o2 now2 c
  /\ 0 <= LastChecked (runChecker o1 now1 c) < 2 ^ 64
  /\ (0 <= now1 < 2 ^ 63 -> LastChecked (runChecker o1 now1 c) = now1)
  /\ (- 2 ^ 63 <= now1 < 0 -> LastChecked (runChecker o1 now1 c) = 2 ^ 64 + now1).
Proof.
  split; [by destruct o1, o2 |].
  assert (LastChecked (runChecker o1 now1 c) = now1 mod 2 ^ 64) as -> by by destruct o1.
  split; [apply Z.mod_pos_bound; lia |]. split.
  - intros Hn. apply Z.mod_small. lia.
  - intros Hn. symmetry. apply (Z.mod_unique _ _ (-1)); lia.
Qed.


End AggregateMore.

Section EdgesOfTheLoop.

Context {Checker : Type}.
Implicit Types (h : Health Checker) (l : loop) (s : Health Checker * loop).
Implicit Types (e : event Checker) (tr : list (event Checker)).

Lemma empty_step (o : option error) (now : Z) s :
  run s.1 = true -> Checks s.1 = [] -> at_pc s.2 = Sleeping ->
  let s' := loop_step o now s in
  run s'.1 = true /\ Checks s'.1 = [] /\ at_pc s'.2 = Sleeping /\
  count s'.2 = 1 /\ H_Healthy s'.1 = true /\ firstPass s'.2 = false.
Proof.
  destruct s as [h l]. simpl. intros Hr Hc Hat.
  unfold loop_step. simpl. rewrite Hat. unfold loop_wake. rewrite Hr. simpl.
  destruct (decide (length (Checks h) <= nextIndex l)%nat) as [Hle | Hgt];
    [| rewrite Hc in Hgt; simpl in Hgt; lia].
  destruct (decide (0 < length (Checks h))%nat) as [Hpos | _];
    [rewrite Hc in Hpos; simpl in Hpos; lia |].
  simpl. rewrite Hc. done.
Qed.

(** X15.  With no check registered and no other goroutine at work the
    loop idles: every step is a whole iteration that probes nothing, leaves
    the registry empty and the aggregate true, and only the very first sleep
    is the short one; every later sleep lasts the full frequency. *)
Theorem empty_registry_idles (frequency : Z) h tr :
  Checks h = [] -> Forall (fun e => is_loop_event e = true) tr -> tr <> [] ->
  let s := exec tr (RunCheckers_start h) in
  at_pc s.2 = Sleeping /\ Checks s.1 = [] /\ H_Healthy s.1 = true /\
  firstPass s.2 = false /\
  sleepDuration frequency s.2 = int64 (int64 frequency * Second).
Proof.
  intros Hc Hall Hne s.
  assert (forall tr' s0,
            Forall (fun e => is_loop_event e = true) tr' ->
            run s0.1 = true -> Checks s0.1 = [] -> at_pc s0.2 = Sleeping ->
            count s0.2 = 1 -> H_Healthy s0.1 = true -> firstPass s0.2 = false ->
            let s1 := exec tr' s0 in
            Checks s1.1 = [] /\ at_pc s1.2 = Sleeping /\ count s1.2 = 1 /\
            H_Healthy s1.1 = true /\ firstPass s1.2 = false) as Hgen.
  { intros tr' s0 Hall'. revert s0.
    induction Hall' as [|e tr' He _ IH]; intros s0 Hr0 Hc0 Hat0 Hn0 Hh0 Hf0; [done |].
    change (exec (e :: tr') s0) with (exec tr' (step s0 e)).
    destruct e as [| | |o now]; try done.
    destruct (empty_step o now s0 Hr0 Hc0 Hat0) as (? & ? & ? & ? & ? & ?).
    by apply IH. }
  destruct tr as [|e tr']; [done |]. apply Forall_cons in Hall as [He Hall].
  destruct e as [| | |o now]; try done.
  unfold s. change (exec (EvLoop o now :: tr') (RunCheckers_start h))
    with (exec tr' (step (RunCheckers_start h) (EvLoop o now))).
  destruct (empty_step o now (RunCheckers_start h)) as (? & ? & ? & ? & ? & ?);
    [done | done | done |].
  destruct (Hgen tr' (step (RunCheckers_start h) (EvLoop o now)))
    as (Hc1 & Hat1 & Hn1 & Hh1 & Hf1); try done.
  repeat split; try done.
  unfold sleepDuration. rewrite Hf1, Hn1. apply Z.quot_1_r.
Qed.

(** X16.  Bounds of the steady-state sleep.  For a frequency from 0 to
    9223372036 seconds nothing overflows: the sleep is not negative, and
    [count] sleeps add up to the frequency less at most [count] minus one
    nanoseconds, so that the sleeps of one rotation, one fewer than [count],
    stay short of the frequency by one sleep.  From 9223372037 up to
    18446744073 seconds the product wraps around and the sleep is not
    positive. *)
Theorem sleepDuration_bounds (frequency : Z) l :
  firstPass l = false -> 0 < count l ->
  (0 <= frequency <= 9223372036 ->
   0 <= sleepDuration frequency l <= frequency * Second /\
   count l * sleepDuration frequency l <= frequency * Second
     < count l * sleepDuration frequency l + count l /\
   (count l - 1) * sleepDuration frequency l
     <= frequency * Second - sleepDuration frequency l)
  /\ (9223372037 <= frequency <= 18446744073 -> sleepDuration frequency l <= 0).
Proof.
  intros Hf Hc. unfold sleepDuration. rewrite Hf. split.
  - intros Hfreq.
    rewrite (int64_small frequency) by lia.
    rewrite int64_small by (unfold Second; lia).
    rewrite Z.quot_div_nonneg by (unfold Second; lia).
    pose proof (Z.mul_div_le (frequency * Second) (count l) Hc) as H1.
    pose proof (Z.mul_succ_div_gt (frequency * Second) (count l) Hc) as H2.
    assert (0 <= frequency * Second / count l) as H3
      by (apply Z.div_pos; unfold Second; lia).
    repeat split; try lia; nia.
  - intros Hfreq.
    rewrite (int64_small frequency) by lia.
    assert (int64 (frequency * Second) = frequency * Second - 2 ^ 64) as ->.
    { assert ((frequency * Second + 2 ^ 63) mod 2 ^ 64 = frequency * Second - 2 ^ 63)
        as Hm by (symmetry; apply (Z.mod_unique _ _ 1); unfold Second; lia).
      unfold int64. rewrite Hm. lia. }
    assert (frequency * Second - 2 ^ 64 = - (2 ^ 64 - frequency * Second)) as -> by lia.
    rewrite Z.quot_opp_l by lia.
    assert (0 <= (2 ^ 64 - frequency * Second) ÷ count l)
      by (apply Z.quot_pos; unfold Second; lia).
    lia.
Qed.

End EdgesOfTheLoop.

Section HandlerMore.

Context {Checker : Type}.
Implicit Types (h : Health Checker).

(** X17.  What [w.Write] answers changes the log and nothing else: status
    code, header and body are the same for every writer.  A request logs
    nothing exactly when the encoding succeeded and the writer reported all
    its bytes written without an error; a failed encoding logs one line and
    never reaches the writer's answer. *)
Theorem HTTPHandler_write_only_logs (json_Marshal : Health Checker -> error + string)
    (w1 w2 : string -> Z * option error) h :
  (status (HTTPHandler json_Marshal w1 h) = status (HTTPHandler json_Marshal w2 h) /\
   header (HTTPHandler json_Marshal w1 h) = header (HTTPHandler json_Marshal w2 h) /\
   body (HTTPHandler json_Marshal w1 h) = body (HTTPHandler json_Marshal w2 h))
  /\ (logged (HTTPHandler json_Marshal w1 h) = [] <->
      exists data, json_Marshal h = inr data /\
                   w1 data = (Z.of_nat (String.length data), None))
  /\ (forall e, json_Marshal h = inl e ->
        logged (HTTPHandler json_Marshal w1 h) = ["Healthcheck HTTPHandler: " ++ e]).
Proof.
  unfold HTTPHandler. destruct (json_Marshal h) as [e | data].
  - repeat split; try done.
    + intros (data & Hd & _). discriminate.
    + by intros e' [= <-].
  - destruct (w1 data) as [n1 e1] eqn:E1, (w2 data) as [n2 e2] eqn:E2. simpl.
    repeat split; try done.
    + intros Hl. exists data. split; [done |]. rewrite E1.
      destruct e1 as [e1|]; [done |]. simpl in Hl.
      destruct (decide (n1 = Z.of_nat (String.length data))) as [-> |]; done.
    + intros (data' & [= <-] & Hw). rewrite E1 in Hw. injection Hw as -> ->.
      simpl. by rewrite decide_True.
Qed.

End HandlerMore.

(** X18.  A probe made by [HTTPChecker] sends its GET for the URL it was
    given through the client the registry holds at that moment, the one of
    the last [WithHTTPClient] or the default one of [MakeHealth], and it
    succeeds exactly when that GET is answered, the body can be drained and
    the status code is from 200 to 399; a later [WithHTTPClient] does not
    reach a probe already made, and changes nothing else of the registry. *)
Theorem HTTPChecker_success_iff {Checker : Type} (u : string) (client client' : Client)
    (h : Health Checker) :
  (httpChecker_Check (HTTPChecker u (WithHTTPClient client h)) = None <->
   exists resp, client u = inr resp /\ Body resp = None /\ 200 <= StatusCode resp <= 399)
  /\ (httpChecker_Check (HTTPChecker u (MakeHealth (Checker := Checker) client)) = None <->
      exists resp, client u = inr resp /\ Body resp = None /\ 200 <= StatusCode resp <= 399)
  /\ HTTPChecker u (WithHTTPClient client h) = mkHttpChecker u client
  /\ (run (WithHTTPClient client' h) = run h /\
      H_Healthy (WithHTTPClient client' h) = H_Healthy h /\
      Checks (WithHTTPClient client' h) = Checks h).
Proof.
  assert (forall hc : httpChecker,
            httpChecker_Check hc = None <->
            exists resp, hc_httpClient hc (url hc) = inr resp /\ Body resp = None /\
                         200 <= StatusCode resp <= 399) as Hiff.
  { intros hc. unfold httpChecker_Check.
    destruct (hc_httpClient hc (url hc)) as [e | resp].
    - split; [done | by intros (? & ? & _)].
    - destruct (Body resp) as [e|] eqn:Eb.
      + split; [done |]. intros (resp' & [= <-] & Hb & _). congruence.
      + destruct (200 <=? StatusCode resp)%Z eqn:E1, (StatusCode resp <? 400)%Z eqn:E2;
          simpl; split; try done.
        * intros _. exists resp. repeat split; [done | lia | lia].
        * intros (resp' & [= <-] & _ & Hc). lia.
        * intros (resp' & [= <-] & _ & Hc). lia.
        * intros (resp' & [= <-] & _ & Hc). lia. }
  split; [apply (Hiff (mkHttpChecker u client)) |].
  split; [apply (Hiff (mkHttpChecker u client)) |]. done.
Qed.

(** ** The further properties at sample registries *)

(** The only check is removed between the release of the mutex and the slot
    address of the first iteration. *)
Lemma removal_before_slot_address_witness :
  let s := exec [EvLoop None 1] (RunCheckers_start one_check) in
  at_pc s.2 = Unlocked /\ (nextIndex s.2 < length (Checks s.1))%nat /\
  "db" ∈ names s.1 /\
  at_pc (exec [EvLoop None 1; EvRemoveCheck "db"; EvLoop None 1]
              (RunCheckers_start one_check)).2 = Panicked.
Proof.
  cbv zeta. set (s := exec [EvLoop None 1] (RunCheckers_start one_check)).
  assert (at_pc s.2 = Unlocked) as Hat by reflexivity.
  assert (nextIndex s.2 < length (Checks s.1))%nat as Hlt by (vm_compute; lia).
  assert ("db" ∈ names s.1) as Hin by (compute; constructor).
  assert (RemoveCheck "db" s.1 = Some (default s.1 (RemoveCheck "db" s.1))) as Hr
    by reflexivity.
  destruct (removal_before_slot_address None 1 s.1 _ s.2 "db" Hat Hlt Hin Hr) as [Hp _].
  split; [exact Hat |]. split; [exact Hlt |]. split; [exact Hin |].
  apply Hp. reflexivity.
Defined.

Lemma no_panic_without_removal_witness :
  forallb (fun e => negb (is_remove_event e))
          [EvLoop (Checker := testChecker) None 1; EvAddCheck "web" false successChecker;
           EvLoop None 1; EvStopCheckers; EvLoop (Some "down") 2; EvLoop None 3] = true
  /\ at_pc (exec [EvLoop None 1; EvAddCheck "web" false successChecker;
                  EvLoop None 1; EvStopCheckers; EvLoop (Some "down") 2; EvLoop None 3]
                 (RunCheckers_start two_checks)).2 <> Panicked.
Proof.
  assert (forallb (fun e => negb (is_remove_event e))
            [EvLoop (Checker := testChecker) None 1; EvAddCheck "web" false successChecker;
             EvLoop None 1; EvStopCheckers; EvLoop (Some "down") 2; EvLoop None 3] = true)
    as Hall by reflexivity.
  split; [exact Hall | exact (no_panic_without_removal two_checks _ Hall)].
Defined.

Lemma aggregate_frozen_after_loop_end_witness :
  let s := exec [EvStopCheckers; EvLoop None 1] (RunCheckers_start one_check) in
  (at_pc s.2 = Returned \/ at_pc s.2 = Panicked) /\
  H_Healthy (exec [EvRemoveCheck "db"; EvLoop None 2; EvLoop None 3] s).1 = H_Healthy s.1.
Proof.
  cbv zeta. set (s := exec [EvStopCheckers; EvLoop None 1] (RunCheckers_start one_check)).
  assert (at_pc s.2 = Returned \/ at_pc s.2 = Panicked) as Hend by (left; reflexivity).
  split; [exact Hend |].
  exact (proj2 (aggregate_frozen_after_loop_end s
                  [EvRemoveCheck "db"; EvLoop None 2; EvLoop None 3] Hend)).
Defined.

Lemma rotation_is_round_robin_witness :
  (0 < length (Checks two_checks))%nat /\
  at_pc (loop_step None 4 (loop_step None 4
           (iterations [(None, 1); (Some "down", 2); (None, 3)]
                       (RunCheckers_start two_checks)))).2 = Probing 1.
Proof.
  assert (0 < length (Checks two_checks))%nat as Hn by (vm_compute; lia).
  split; [exact Hn |].
  destruct (rotation_is_round_robin None 4 two_checks
              [(None, 1); (Some "down", 2); (None, 3)] Hn) as (_ & _ & _ & Hslot).
  exact Hslot.
Defined.

Lemma first_rotation_visits_each_once_witness :
  length [(@None error, 5); (Some "down", 6)] = length (Checks two_checks) /\
  LastChecked <$> Checks (iterations [(None, 5); (Some "down", 6)]
                                     (RunCheckers_start two_checks)).1 = [5; 6].
Proof.
  assert (length [(@None error, 5); (Some "down", 6)] = length (Checks two_checks))
    as Hlen by reflexivity.
  split; [exact Hlen |].
  etransitivity;
    [apply (f_equal (fmap LastChecked));
     exact (first_rotation_visits_each_once two_checks _ Hlen) | reflexivity].
Defined.

Lemma first_pass_sleeps_witness :
  (0 < length (Checks two_checks))%nat /\
  sleepDuration 6 (iterations [(None, 1); (None, 2)] (RunCheckers_start two_checks)).2
  = 10 * Millisecond /\
  sleepDuration 6 (iterations [(None, 1); (None, 2); (None, 3)]
                              (RunCheckers_start two_checks)).2
  = 2 * Second.
Proof.
  assert (0 < length (Checks two_checks))%nat as Hn by (vm_compute; lia).
  split; [exact Hn |]. split.
  - rewrite (proj2 (first_pass_sleeps 6 two_checks [(None, 1); (None, 2)] Hn)).
    reflexivity.
  - rewrite (proj2 (first_pass_sleeps 6 two_checks [(None, 1); (None, 2); (None, 3)] Hn)).
    reflexivity.
Defined.

Lemma removeChecker_slots_witness :
  removeChecker (Checks two_checks) 2 = None /\
  Service <$> default [] (removeChecker (Checks two_checks) 0) = ["cache"].
Proof.
  destruct (removeChecker_slots (Checks two_checks) 2) as [Hnone _].
  split; [apply Hnone; vm_compute; lia | reflexivity].
Defined.

Lemma AddCheck_RemoveCheck_roundtrip_witness :
  ("web" ∉ names two_checks) /\
  RemoveCheck "web" (AddCheck "web" true failChecker two_checks) = Some two_checks.
Proof.
  assert ("web" ∉ names two_checks) as Hn.
  { compute. intros H. repeat (inversion H as [|? ? ? H']; subst; clear H; rename H' into H). }
  split; [exact Hn | exact (AddCheck_RemoveCheck_roundtrip "web" true failChecker _ Hn)].
Defined.

Lemma loop_step_frame_witness :
  let s := exec [EvLoop None 1; EvLoop None 1] (RunCheckers_start two_checks) in
  at_pc s.2 = Probing 0 /\
  Checks (loop_step (Some "down") 2 s).1 !! 1%nat = Checks s.1 !! 1%nat.
Proof.
  cbv zeta. set (s := exec [EvLoop None 1; EvLoop None 1] (RunCheckers_start two_checks)).
  assert (at_pc s.2 = Probing 0) as Hat by reflexivity.
  destruct (loop_step_frame (Some "down") 2 s) as (_ & _ & _ & _ & Hother).
  split; [exact Hat | apply (Hother 0%nat 1%nat Hat); lia].
Defined.

Lemma recompute_under_registration_witness :
  let h := (iterations [(Some "down", 1)] (RunCheckers_start two_checks)).1 in
  recompute (Checks h) = false /\
  recompute (Checks (default h (RemoveCheck "db" h))) = true /\
  (recompute (Checks (default h (RemoveCheck "cache" h))) = false).
Proof.
  cbv zeta.
  set (h := (iterations [(Some "down", 1)] (RunCheckers_start two_checks)).1).
  destruct (recompute_under_registration "db" false successChecker h) as (_ & _ & Hbad).
  split; [| split; reflexivity].
  apply (Hbad (mkIndicator "db" false "db ERROR down" false 1 successChecker));
    [vm_compute; constructor | reflexivity | reflexivity].
Defined.

Lemma runChecker_last_run_wins_witness :
  - 2 ^ 63 <= -1 < 0 /\
  LastChecked (runChecker None (-1) (mkIndicator "db" true "" false 0 successChecker))
  = 18446744073709551615.
Proof.
  assert (- 2 ^ 63 <= -1 < 0) as Hn by (split; [vm_compute; discriminate | reflexivity]).
  split; [exact Hn |].
  destruct (runChecker_last_run_wins None None (-1) 0
              (mkIndicator "db" true "" false 0 successChecker)) as (_ & _ & _ & Hwrap).
  rewrite (Hwrap Hn). reflexivity.
Defined.


Lemma empty_registry_idles_witness :
  Checks (MakeHealth (Checker := testChecker) deadClient) = [] /\
  sleepDuration 6 (exec (replicate 3 (EvLoop None 1))
                        (RunCheckers_start (MakeHealth (Checker := testChecker) deadClient))).2
  = 6 * Second.
Proof.
  assert (Forall (fun e => is_loop_event e = true)
                 (replicate 3 (EvLoop (Checker := testChecker) None 1))) as Hall
    by (apply Forall_replicate; reflexivity).
  assert (replicate 3 (EvLoop (Checker := testChecker) None 1) <> []) as Hne
    by discriminate.
  split; [reflexivity |].
  destruct (empty_registry_idles 6 (MakeHealth (Checker := testChecker) deadClient)
              _ eq_refl Hall Hne) as (_ & _ & _ & _ & Hsleep).
  rewrite Hsleep. reflexivity.
Defined.

Lemma sleepDuration_bounds_witness :
  0 <= 60 <= 9223372036 /\ 9223372037 <= 9223372037 <= 18446744073 /\
  sleepDuration 60 (mkLoop 1 false 7 Sleeping) = 8571428571 /\
  sleepDuration 9223372037 (mkLoop 1 false 7 Sleeping) <= 0.
Proof.
  assert (0 <= 60 <= 9223372036) as H1 by lia.
  assert (9223372037 <= 9223372037 <= 18446744073) as H2 by lia.
  destruct (sleepDuration_bounds 9223372037 (mkLoop 1 false 7 Sleeping) eq_refl eq_refl)
    as [_ Hwrap].
  split; [exact H1 |]. split; [exact H2 |]. split; [reflexivity | exact (Hwrap H2)].
Defined.

Lemma HTTPHandler_write_only_logs_witness :
  logged (HTTPHandler marshal_ok write_all one_check) = [] /\
  logged (HTTPHandler marshal_ok (fun _ => (1, Some "broken pipe")) one_check)
  = ["when writing body: broken pipe"; "unable to write entire body, 1 of 2 bytes"].
Proof.
  destruct (HTTPHandler_write_only_logs marshal_ok write_all write_all one_check)
    as (_ & Hnone & _).
  split; [| reflexivity].
  apply Hnone. exists "{}". split; reflexivity.
Defined.
